(** * Flight book generator: a shallow embedding of [igc_parser.py]

    The development follows the Python module function by function:
    [find_closest_peak_to_location], [parse_flight_details] and
    [parse_flights].  Python exceptions are explicit ([result]), the
    standard output and the CSV writes form a trace of [event]s, and the
    collaborators the module calls (track parser, reverse geocoder,
    Overpass, geodesic distance, local time zone, file system, and what
    the builtins do with texts beyond ASCII) are the fields of a record
    [Env].  A text is the sequence of its bytes in UTF-8, so a character
    of ASCII is one byte below 128 and every other character is made of
    bytes from 128 on. *)

From Stdlib Require Import Ascii String ZArith QArith Qround Qabs Lia.
From Stdlib Require Import Lqa.
From stdpp Require Import base option list strings gmap pretty sorting.

Local Open Scope string_scope.
Local Open Scope Z_scope.
Local Open Scope list_scope.

(** ** Exceptions *)

(** The exceptions the module can meet; [OSError] is what writing the
    table raises (a missing folder, no permission), [ServiceError] stands
    for what another collaborator raises of its own (a time-out of the
    geocoder, an unreadable file). *)
Inductive exn : Type :=
  | KeyError (key : string)
  | ValueError (msg : string)
  | AttributeError (msg : string)
  | OSError (msg : string)
  | ServiceError (msg : string).

Inductive result (A : Type) : Type :=
  | Ok (a : A)
  | Raise (e : exn).
Arguments Ok {A} a.
Arguments Raise {A} e.

Definition is_ok {A} (r : result A) : bool :=
  match r with Ok _ => true | Raise _ => false end.

(** ** Numbers as Python has them *)

(** [round(x)] on a float: nearest integer, exact halves go to the even
    neighbour. *)
Definition py_round (x : Q) : Z :=
  let f := Qfloor x in
  match Qcompare (x - inject_Z f) (1 # 2) with
  | Lt => f
  | Gt => f + 1
  | Eq => if Z.even f then f else f + 1
  end.

(** [int(x)] on a float: truncation towards zero. *)
Definition py_int (x : Q) : Z := Z.quot (Qnum x) (Z.pos (Qden x)).

(** ** Stable sorting, as [sorted] and [DataFrame.sort_values] do it *)

Section StableSort.
Context {A : Type} (leb : A → A → bool).

Fixpoint insert_sorted (x : A) (l : list A) : list A :=
  match l with
  | [] => [x]
  | y :: l' => if leb x y then x :: y :: l' else y :: insert_sorted x l'
  end.

Fixpoint stable_sort (l : list A) : list A :=
  match l with
  | [] => []
  | x :: l' => insert_sorted x (stable_sort l')
  end.
End StableSort.

(** ** Strings as Python has them *)

(** [s.translate(tr)]: every character with an entry in the table is
    replaced by the entry's text, the others are kept. *)
Fixpoint translate (table : ascii → option string) (s : string) : string :=
  match s with
  | EmptyString => EmptyString
  | String c s' =>
      match table c with
      | Some r => r +:+ translate table s'
      | None => String c (translate table s')
      end
  end.

(** [s.replace(old, new)] for a non-empty [old]: the occurrences are
    taken from left to right and do not overlap.  [skip] counts the
    characters of the occurrence just replaced that are still ahead. *)
Fixpoint replace_from (old new : string) (skip : nat) (s : string) : string :=
  match s with
  | EmptyString => EmptyString
  | String c s' =>
      match skip with
      | S k => replace_from old new k s'
      | O =>
          if String.prefix old s
          then new +:+ replace_from old new (String.length old - 1) s'
          else String c (replace_from old new 0 s')
      end
  end.

Definition replace (old new s : string) : string := replace_from old new 0 s.

(** A text of ASCII characters only. *)
Definition ascii_text (s : string) : bool :=
  forallb (λ c, (nat_of_ascii c <? 128)%nat) (list_ascii_of_string s).

(** *** [repr(text)]

    For an ASCII text: single quotes around it, or double quotes when
    the text holds a single quote and no double one; the quote in use
    and the backslash get a backslash before them, tab, line feed and
    carriage return are written [\t], [\n], [\r], and every other
    control character as [\x] with two hexadecimal digits. *)
Definition single_quote : ascii := ascii_of_nat 39.
Definition double_quote : ascii := ascii_of_nat 34.
Definition backslash : ascii := ascii_of_nat 92.

Definition has_char (c : ascii) (s : string) : bool :=
  existsb (Ascii.eqb c) (list_ascii_of_string s).

Definition repr_quote (s : string) : ascii :=
  if has_char single_quote s && negb (has_char double_quote s)
  then double_quote else single_quote.

Definition hexdigit (n : nat) : ascii :=
  nth n (list_ascii_of_string "0123456789abcdef") (ascii_of_nat 48).

Definition repr_char (quote c : ascii) : string :=
  let n := nat_of_ascii c in
  if Ascii.eqb c quote || Ascii.eqb c backslash then String backslash (String c "")
  else if (n =? 9)%nat then String backslash "t"
  else if (n =? 10)%nat then String backslash "n"
  else if (n =? 13)%nat then String backslash "r"
  else if (n <? 32)%nat || (n =? 127)%nat then
    String backslash
      (String "x" (String (hexdigit (n / 16)) (String (hexdigit (n mod 16)) "")))
  else String c "".

Definition repr_ascii (s : string) : string :=
  let quote := repr_quote s in
  String quote
    (String.concat "" (map (repr_char quote) (list_ascii_of_string s))
     +:+ String quote "").

(** *** Floats

    A finite float is kept as the rational it stands for, with the two
    infinities and NaN beside it; the sign of a zero is not kept. *)
Inductive pyfloat : Type :=
  | FNum (q : Q)
  | FInf (negative : bool)
  | FNan.

(** [a / b] for [0 <= a] and [0 < b], to the nearest integer, an exact
    half to the even neighbour. *)
Definition round_half_even (a b : Z) : Z :=
  let q := a / b in
  match 2 * (a mod b) ?= b with
  | Lt => q
  | Gt => q + 1
  | Eq => if Z.even q then q else q + 1
  end.

(** The double nearest to [n / d] for positive [n] and [d], a tie going
    to the even significand; [None] when that is beyond the largest
    double.  [e] is the exponent of [n / d], that is
    [2 ^ e <= n / d < 2 ^ (e + 1)], and [2 ^ k] the spacing of the
    doubles there: 53 significant bits, and [2 ^ -1074] below
    [2 ^ -1022]. *)
Definition nearest_double (n d : Z) : option Q :=
  let e0 := Z.log2 n - Z.log2 d in
  let reached :=
    if 0 <=? e0 then d * 2 ^ e0 <=? n else d <=? n * 2 ^ (- e0) in
  let e := if reached then e0 else e0 - 1 in
  let k := Z.max e (-1022) - 52 in
  if 0 <=? k then
    let m := round_half_even n (d * 2 ^ k) in
    if 2 ^ 1024 <=? m * 2 ^ k then None else Some (inject_Z (m * 2 ^ k))
  else
    let m := round_half_even (n * 2 ^ (- k)) d in
    Some (Qred (m # Z.to_pos (2 ^ (- k)))).

(** The float a decimal numeral of value [q] is read as. *)
Definition binary64 (q : Q) : pyfloat :=
  match Qnum q with
  | 0 => FNum 0
  | Z.pos n =>
      match nearest_double (Z.pos n) (Z.pos (Qden q)) with
      | Some v => FNum v
      | None => FInf false
      end
  | Z.neg n =>
      match nearest_double (Z.pos n) (Z.pos (Qden q)) with
      | Some v => FNum (- v)
      | None => FInf true
      end
  end.

(** *** [float(text)]

    The accepted ASCII texts are those of Python's grammar: surrounding
    white space (tab to carriage return, and the space), a sign, [inf],
    [infinity], [nan] in any letter case, and decimal numerals with an
    optional fraction and exponent, where single underscores may
    separate digits.  A text with a character beyond ASCII is left to
    the collaborator [float_beyond_ascii], see [float] below. *)
Definition is_space (c : ascii) : bool :=
  let n := nat_of_ascii c in
  ((9 <=? n) && (n <=? 13) || (n =? 32))%nat.

Definition is_digit (c : ascii) : bool :=
  let n := nat_of_ascii c in ((48 <=? n) && (n <=? 57))%nat.

Definition digit_value (c : ascii) : Z := Z.of_nat (nat_of_ascii c) - 48.

Definition lower (c : ascii) : ascii :=
  let n := nat_of_ascii c in
  if ((65 <=? n) && (n <=? 90))%nat then ascii_of_nat (n + 32) else c.

Fixpoint drop_spaces (l : list ascii) : list ascii :=
  match l with
  | c :: l' => if is_space c then drop_spaces l' else l
  | [] => []
  end.

Definition strip (l : list ascii) : list ascii :=
  rev (drop_spaces (rev (drop_spaces l))).

(** The digits after a first one: value so far, number of digits read,
    and what is left. *)
Fixpoint digits_go (acc : Z) (cnt : nat) (l : list ascii)
  : Z * nat * list ascii :=
  match l with
  | c :: l' =>
      if is_digit c then digits_go (acc * 10 + digit_value c) (S cnt) l'
      else if Ascii.eqb c "_" then
        match l' with
        | d :: l'' =>
            if is_digit d
            then digits_go (acc * 10 + digit_value d) (S cnt) l''
            else (acc, cnt, l)
        | [] => (acc, cnt, l)
        end
      else (acc, cnt, l)
  | [] => (acc, cnt, [])
  end.

Definition digitpart (l : list ascii) : option (Z * nat * list ascii) :=
  match l with
  | c :: l' => if is_digit c then Some (digits_go (digit_value c) 1 l') else None
  | [] => None
  end.

Definition sign_of (l : list ascii) : bool * list ascii :=
  match l with
  | c :: l' =>
      if Ascii.eqb c "-" then (true, l')
      else if Ascii.eqb c "+" then (false, l')
      else (false, l)
  | [] => (false, [])
  end.

(** The exponent that may end a numeral; [None] when text is left that
    is not one. *)
Definition exponent (l : list ascii) : option Z :=
  match l with
  | [] => Some 0
  | c :: l' =>
      if Ascii.eqb (lower c) "e" then
        let '(neg, l'') := sign_of l' in
        match digitpart l'' with
        | Some (e, _, []) => Some (if neg : bool then - e else e)
        | _ => None
        end
      else None
  end.

Definition scale (mantissa : Z) (e : Z) : Q :=
  if 0 <=? e then inject_Z (mantissa * 10 ^ e)
  else Qmake mantissa (Z.to_pos (10 ^ (- e))).

Definition numeral (l : list ascii) : option Q :=
  match digitpart l with
  | Some (i, _, rest) =>
      match rest with
      | c :: rest' =>
          if Ascii.eqb c "." then
            match digitpart rest' with
            | Some (f, n, rest'') =>
                e ← exponent rest'';
                Some (scale (i * 10 ^ Z.of_nat n + f) (e - Z.of_nat n))
            | None => e ← exponent rest'; Some (scale i e)
            end
          else e ← exponent rest; Some (scale i e)
      | [] => Some (inject_Z i)
      end
  | None =>
      match l with
      | c :: rest =>
          if Ascii.eqb c "." then
            match digitpart rest with
            | Some (f, n, rest') =>
                e ← exponent rest'; Some (scale f (e - Z.of_nat n))
            | None => None
            end
          else None
      | [] => None
      end
  end.

Definition float_ascii (s : string) : result pyfloat :=
  let '(neg, body) := sign_of (strip (list_ascii_of_string s)) in
  let word := string_of_list_ascii (map lower body) in
  if String.eqb word "inf" || String.eqb word "infinity" then Ok (FInf neg)
  else if String.eqb word "nan" then Ok FNan
  else
    match numeral body with
    | Some q => Ok (binary64 (if neg then - q else q)%Q)
    | None =>
        Raise (ValueError ("could not convert string to float: " +:+ repr_ascii s))
    end.

(** ** Dates and times, as [datetime] has them *)

Record datetime : Type := {
  year : Z; month : Z; day : Z;
  hour : Z; minute : Z; second : Z
}.

(** Proleptic Gregorian date of a day number counted from 1970-01-01. *)
Definition civil_from_days (days : Z) : Z * Z * Z :=
  let z := days + 719468 in
  let era := z / 146097 in
  let doe := z - era * 146097 in
  let yoe := (doe - doe / 1460 + doe / 36524 - doe / 146096) / 365 in
  let doy := doe - (365 * yoe + yoe / 4 - yoe / 100) in
  let mp := (5 * doy + 2) / 153 in
  let d := doy - (153 * mp + 2) / 5 + 1 in
  let m := if mp <? 10 then mp + 3 else mp - 9 in
  let y := yoe + era * 400 in
  (if m <=? 2 then y + 1 else y, m, d).

Definition days_from_civil (y m d : Z) : Z :=
  let y' := if m <=? 2 then y - 1 else y in
  let era := y' / 400 in
  let yoe := y' - era * 400 in
  let doy := (153 * (if 2 <? m then m - 3 else m + 9) + 2) / 5 + d - 1 in
  let doe := yoe * 365 + yoe / 4 - yoe / 100 + doy in
  era * 146097 + doe - 719468.

(** The wall-clock reading of a count of seconds since the epoch of its
    own calendar. *)
Definition datetime_of_seconds (s : Z) : datetime :=
  let '(y, m, d) := civil_from_days (s / 86400) in
  let r := s mod 86400 in
  {| year := y; month := m; day := d;
     hour := r / 3600; minute := r mod 3600 / 60; second := r mod 60 |}.

Definition seconds_of_datetime (dt : datetime) : Z :=
  days_from_civil (year dt) (month dt) (day dt) * 86400
  + hour dt * 3600 + minute dt * 60 + second dt.

(** [dt.strftime('%H:%M')] *)
Definition two_digits (n : Z) : string :=
  String (ascii_of_nat (Z.to_nat (48 + n / 10)))
    (String (ascii_of_nat (Z.to_nat (48 + n mod 10))) EmptyString).

Definition strftime_HM (dt : datetime) : string :=
  two_digits (hour dt) +:+ ":" +:+ two_digits (minute dt).

(** [(a - b).total_seconds()] for two naive datetimes. *)
Definition total_seconds_between (a b : datetime) : Z :=
  seconds_of_datetime a - seconds_of_datetime b.

(** The reading the specification asks for: the timestamp taken as UTC. *)
Definition utcfromtimestamp (ts : Z) : datetime := datetime_of_seconds ts.

(** ** The flight record and the table *)

Record FlightRecord : Type := {
  Day : Z;
  Month : Z;
  Year : Z;
  Glider : string;
  Takeoff_Time_UTC : string;
  Takeoff_Location : string;
  Takeoff_lat_lon : string;
  GPS_Altitude_Takeoff_m : Q;
  Landing_Time_UTC : string;
  Landing_Location : string;
  Landing_lat_lon : string;
  GPS_Altitude_Landing_m : Q;
  Airtime_min : Z;
  Number_of_thermals : Z;
  Thermal_gain_m : Z;
  Median_thermal_velocity_m_s : Q;
  IGC_File : string
}.

(** The keys of the dict [parse_flight_details] returns, in its order. *)
Definition record_keys : list string :=
  [ "Day"; "Month"; "Year"; "Glider"; "Takeoff Time (UTC)";
    "Takeoff Location"; "Takeoff lat,lon"; "GPS Altitude Takeoff (m)";
    "Landing Time (UTC)"; "Landing Location"; "Landing lat,lon";
    "GPS Altitude Landing (m)"; "Airtime (min)"; "Number of thermals";
    "Thermal gain (m)"; "Median thermal velocity (m/s)"; "IGC File" ].

Record DataFrame : Type := {
  columns : list string;
  rows : list FlightRecord
}.

(** ** The collaborators' data *)

(** A [pathlib.Path] by its components; [name] is the last one. *)
Definition Path : Type := list string.
Definition name (p : Path) : string := List.last p "".

(** [igc_lib]: a fix, a thermal (by the values of its two methods) and a
    flight.  Timestamps are whole seconds since the epoch, as the B
    records of a track give them. *)
Record Fix : Type := {
  lat : Q; lon : Q; timestamp : Z; gnss_alt : Q
}.

Record Thermal : Type := {
  alt_change : Q;
  vertical_velocity : Q
}.

Record Flight : Type := {
  valid : bool;
  notes : list string;
  glider_type : string;
  takeoff_fix : Fix;
  landing_fix : Fix;
  thermals : list Thermal
}.

(** [geopy]: the [raw] answer of the reverse geocoder, by the entries
    the module reads.  The address may be missing. *)
Record Location : Type := {
  raw_lat : string;
  raw_lon : string;
  raw_address : option (gmap string string)
}.

(** [overpy]: a node of the answer. *)
Record Node : Type := {
  tags : gmap string string;
  node_lat : Q;
  node_lon : Q
}.

(** What the module calls and does not define. *)
Record Env : Type := {
  (** [igc_lib.Flight.create_from_file] *)
  create_from_file : Path → result Flight;
  (** [Nominatim.reverse] on the text ["lat,lon"]; [None] when the
      service finds nothing *)
  reverse : string → result (option Location);
  (** [Overpass.query] for the peaks around a point: radius in metres and
      the two coordinate texts; the nodes of the answer in its order *)
  overpass_query : Z → string → string → result (list Node);
  (** [geopy.distance.distance(a, b).kilometers] *)
  distance : Q * Q → string * string → result Q;
  (** offset of the local time zone from UTC, in seconds, at an instant *)
  utcoffset : Z → Z;
  (** the text of a float in an f-string *)
  str_float : Q → string;
  (** [Path(folder).rglob(pattern)] *)
  rglob : string → string → list Path;
  (** how writing a table to a path ends: the file system under
      [df.to_csv(path, sep=';', index=False)] *)
  csv_write : Path → DataFrame → result unit;
  (** [float(text)] and [repr(text)] for a text with a character beyond
      ASCII, where the answer rests on the tables of Unicode *)
  float_beyond_ascii : string → result pyfloat;
  repr_beyond_ascii : string → string
}.

(** [float(text)] *)
Definition float (env : Env) (s : string) : result pyfloat :=
  if ascii_text s then float_ascii s else float_beyond_ascii env s.

(** [repr(text)] *)
Definition repr (env : Env) (s : string) : string :=
  if ascii_text s then repr_ascii s else repr_beyond_ascii env s.

(** [datetime.fromtimestamp(ts)]: local time, years 1 to 9999. *)
Definition fromtimestamp (env : Env) (ts : Z) : result datetime :=
  let dt := datetime_of_seconds (ts + utcoffset env ts) in
  if (1 <=? year dt) && (year dt <=? 9999) then Ok dt
  else Raise (ValueError ("year " +:+ pretty (year dt) +:+ " is out of range")).

(** ** Sequencing calls that may raise *)

#[global] Instance result_bind : MBind result := λ A B f r,
  match r with
  | Ok a => f a
  | Raise e => Raise e
  end.

(** [try: body except: handler] with a bare [except]. *)
Definition try_except {A} (body : result A) (handler : A) : result A :=
  match body with
  | Ok a => Ok a
  | Raise _ => Ok handler
  end.

(** ** [find_closest_peak_to_location] *)

Record Peak : Type := {
  elevation : pyfloat;
  latitude : Q;
  longitude : Q;
  peak_distance : Q;
  peak_name : string
}.

(** The translation table [tr]: drop every [m], turn a comma into a
    point. *)
Definition tr (c : ascii) : option string :=
  if Ascii.eqb c "m" then Some ""
  else if Ascii.eqb c "," then Some "."
  else None.

(** One turn of the loop over [response.nodes]: the entry a node adds to
    [peak_list], if it carries both tags. *)
Definition peak_of_node (env : Env) (location : Location) (node : Node)
  : result (option Peak) :=
  match tags node !! "ele", tags node !! "name" with
  | Some ele_text, Some nm =>
      ele ← float env (replace " Meter" "" (translate tr ele_text));
      dist ← distance env (node_lat node, node_lon node)
                          (raw_lat location, raw_lon location);
      Ok (Some {| elevation := ele;
                  latitude := node_lat node;
                  longitude := node_lon node;
                  peak_distance := dist;
                  peak_name := nm |})
  | _, _ => Ok None
  end.

Fixpoint collect_peaks (env : Env) (location : Location)
    (nodes : list Node) (peak_list : list Peak) : result (list Peak) :=
  match nodes with
  | [] => Ok peak_list
  | node :: rest =>
      p ← peak_of_node env location node;
      collect_peaks env location rest
        (match p with Some pk => peak_list ++ [pk] | None => peak_list end)
  end.

(** The key of [sorted]: [int(k['distance'])], compared with [<=]. *)
Definition distance_key (p : Peak) : Z := py_int (peak_distance p).
Definition closer_eq (a b : Peak) : bool := distance_key a <=? distance_key b.

Definition unknown_location : string := "Unknown Location".

(** The body of the [try]. [location] is [None] when the geocoder found
    nothing; reading [.raw] of it raises. *)
Definition find_closest_peak_body (env : Env) (location : option Location)
    (search_radius_meters : Z) : result string :=
  loc ← match location with
        | Some l => Ok l
        | None => Raise (AttributeError "'NoneType' object has no attribute 'raw'")
        end;
  nodes ← overpass_query env search_radius_meters (raw_lat loc) (raw_lon loc);
  peak_list ← collect_peaks env loc nodes [];
  let peaks_sorted := stable_sort closer_eq peak_list in
  Ok (match peaks_sorted with
      | p :: _ => peak_name p
      | [] => unknown_location
      end).

Definition find_closest_peak_to_location (env : Env)
    (location : option Location) (search_radius_meters : Z) : result string :=
  try_except (find_closest_peak_body env location search_radius_meters)
             unknown_location.

(** ** Making and sorting the table *)

(** [pd.DataFrame.from_dict(flight_dicts)]: the columns are the keys of
    the dicts, so a frame made from no dict has no column. *)
Definition from_dict (flight_dicts : list FlightRecord) : DataFrame :=
  {| columns := match flight_dicts with [] => [] | _ :: _ => record_keys end;
     rows := flight_dicts |}.

(** Order of two rows under [['Year', 'Month', 'Day']]. *)
Definition date_key (r : FlightRecord) : Z * Z * Z := (Year r, Month r, Day r).

Definition key_leb (a b : Z * Z * Z) : bool :=
  let '(y1, m1, d1) := a in
  let '(y2, m2, d2) := b in
  (y1 <? y2) || (y1 =? y2) && ((m1 <? m2) || (m1 =? m2) && (d1 <=? d2)).

Definition date_leb (a b : FlightRecord) : bool := key_leb (date_key a) (date_key b).

(** The columns the module sorts by. *)
Definition date_columns : list string := ["Year"; "Month"; "Day"].

(** [df.sort_values(by)] for the call of the module, [by_] being the three
    date columns: a [KeyError] for the first name that is no column, the
    rows in stable ascending order otherwise. *)
Definition sort_values (by_ : list string) (df : DataFrame) : result DataFrame :=
  match List.find (λ k, negb (bool_decide (k ∈ columns df))) by_ with
  | Some k => Raise (KeyError k)
  | None => Ok {| columns := columns df; rows := stable_sort date_leb (rows df) |}
  end.

(** ** What a run does to the outside: lines printed and tables written *)

Inductive event : Type :=
  | Stdout (line : string)
  | ToCsv (path : Path) (df : DataFrame).

(** A computation: the events it caused, in order, and how it ended. *)
Definition M (A : Type) : Type := list event * result A.

Definition ret {A} (a : A) : M A := ([], Ok a).

Definition bind {A B} (m : M A) (f : A → M B) : M B :=
  match m with
  | (t, Ok a) => let '(t', r) := f a in ((t ++ t')%list, r)
  | (t, Raise e) => (t, Raise e)
  end.

Definition lift {A} (r : result A) : M A := ([], r).
Definition print (line : string) : M unit := ([Stdout line], Ok tt).

(** [df.to_csv(path, sep=';', index=False)]: the table replaces what the
    file held, or the write raises and no table is there. *)
Definition to_csv (env : Env) (df : DataFrame) (path : Path) : M unit :=
  match csv_write env path df with
  | Ok _ => ([ToCsv path df], Ok tt)
  | Raise e => ([], Raise e)
  end.

Notation "'let*' x := m 'in' k" := (bind m (fun x => k))
  (at level 10, x name, m at level 100, k at level 200).

(** ** [parse_flight_details] *)

(** [statistics.median] of a non-empty list. *)
Definition median (data : list Q) : Q :=
  let s := stable_sort Qle_bool data in
  let n := length s in
  if Nat.odd n then nth (n / 2) s 0%Q
  else ((nth (n / 2 - 1) s 0 + nth (n / 2) s 0) / 2)%Q.

(** The loop over [flight.thermals], on the pair of its two variables
    [thermal_gain] and [thermal_velocities]. *)
Definition thermal_step (acc : Z * list Q) (thermal : Thermal) : Z * list Q :=
  (fst acc + py_round (alt_change thermal),
   (snd acc ++ [vertical_velocity thermal])%list).

Definition thermal_loop (ths : list Thermal) : Z * list Q :=
  fold_left thermal_step ths (0, []).

(** Truth value of a text in a condition: the empty text is false. *)
Definition truthy (s : string) : bool := negb (String.eqb s "").

(** The label of the landing place, from the address the geocoder
    answered: [landing_city if landing_city else landing_village]. *)
Definition location_landing_str (address : gmap string string) : string :=
  let landing_city := default "" (address !! "city") in
  let landing_village := default "" (address !! "village") in
  if truthy landing_city then landing_city else landing_village.

(** [location.raw['address']] of what [reverse] returned. *)
Definition raw_address_of (location : option Location)
  : result (gmap string string) :=
  match location with
  | None => Raise (AttributeError "'NoneType' object has no attribute 'raw'")
  | Some l =>
      match raw_address l with
      | Some a => Ok a
      | None => Raise (KeyError "address")
      end
  end.

(** The text [f"{fix.lat},{fix.lon}"]. *)
Definition lat_lon (env : Env) (f : Fix) : string :=
  str_float env (lat f) +:+ "," +:+ str_float env (lon f).

(** [str(flight.notes)], the notes being a list of texts. *)
Definition str_notes (env : Env) (ns : list string) : string :=
  "[" +:+ String.concat ", " (map (repr env) ns) +:+ "]".

(** The part of [parse_flight_details] after the validity test. *)
Definition flight_stats (env : Env) (igc_path : Path) (flight : Flight)
  : result FlightRecord :=
  location_takeoff ← reverse env (lat_lon env (takeoff_fix flight));
  dt_takeoff ← fromtimestamp env (timestamp (takeoff_fix flight));
  location_landing ← reverse env (lat_lon env (landing_fix flight));
  dt_landing ← fromtimestamp env (timestamp (landing_fix flight));
  address ← raw_address_of location_landing;
  let '(thermal_gain, thermal_velocities) := thermal_loop (thermals flight) in
  let median_thermal_velocity :=
    match thermal_velocities with
    | [] => 0%Q
    | _ :: _ => median thermal_velocities
    end in
  takeoff_location ← find_closest_peak_to_location env location_takeoff 2000;
  Ok {| Day := day dt_landing;
        Month := month dt_landing;
        Year := year dt_landing;
        Glider := glider_type flight;
        Takeoff_Time_UTC := strftime_HM dt_takeoff;
        Takeoff_Location := takeoff_location;
        Takeoff_lat_lon := lat_lon env (takeoff_fix flight);
        GPS_Altitude_Takeoff_m := gnss_alt (takeoff_fix flight);
        Landing_Time_UTC := strftime_HM dt_landing;
        Landing_Location := location_landing_str address;
        Landing_lat_lon := lat_lon env (landing_fix flight);
        GPS_Altitude_Landing_m := gnss_alt (landing_fix flight);
        Airtime_min :=
          py_round (inject_Z (total_seconds_between dt_landing dt_takeoff) / 60);
        Number_of_thermals := Z.of_nat (length (thermals flight));
        Thermal_gain_m := thermal_gain;
        Median_thermal_velocity_m_s := median_thermal_velocity;
        IGC_File := name igc_path |}.

(** [None] stands for Python's [None]: the flight is invalid. *)
Definition parse_flight_details (env : Env) (igc_path : Path)
  : M (option FlightRecord) :=
  let* flight := lift (create_from_file env igc_path) in
  if valid flight then
    let* r := lift (flight_stats env igc_path flight) in
    ret (Some r)
  else
    let* _ := print ("Flight " +:+ name igc_path +:+ " is invalid: "
                     +:+ str_notes env (notes flight)) in
    ret None.

(** ** [parse_flights] *)

(** The pattern of the track files, in any letter case. *)
Definition igc_pattern : string := "*.[iI][gG][cC]".

(** A turn of the loop over [igc_files_list] and the turns after it:
    [i] is the index of [enumerate], [total] the length of the whole
    list, [flight_dicts] the records so far.  Returns the records at the
    end. *)
Fixpoint process_files (env : Env) (output_file : Path) (total : nat)
    (i : nat) (files : list Path) (flight_dicts : list FlightRecord)
  : M (list FlightRecord) :=
  match files with
  | [] => ret flight_dicts
  | igc_path :: rest =>
      let* _ := print ("Processing flight " +:+ pretty (i + 1)%nat +:+ "/"
                       +:+ pretty total +:+ " " +:+ name igc_path) in
      let* flight_dict := parse_flight_details env igc_path in
      let flight_dicts :=
        match flight_dict with
        | Some d => (flight_dicts ++ [d])%list
        | None => flight_dicts
        end in
      let df := from_dict flight_dicts in
      let* df := lift (sort_values date_columns df) in
      let* _ := to_csv env df output_file in
      process_files env output_file total (S i) rest flight_dicts
  end.

Definition parse_flights (env : Env)
    (igc_folder output_folder output_filename : string) : M unit :=
  if String.eqb igc_folder "" then print "Please select IGC file location."
  else if String.eqb output_folder "" then
    print "Please select output folder (and optionally change the filename)."
  else
    let output_file : Path := [output_folder; output_filename] in
    let* _ := print "Starting." in
    let igc_files_list := rglob env igc_folder igc_pattern in
    match igc_files_list with
    | [] => print ("No IGC files found in " +:+ igc_folder +:+ " and subfolders.")
    | _ :: _ =>
        let* _ := process_files env output_file (length igc_files_list) 0
                    igc_files_list [] in
        print "Done."
    end.

(** ** Notions the statements below use *)

(** The sum of the gains, each rounded on its own, and the rounding of
    their sum. *)
Definition sum_rounded (gains : list Q) : Z :=
  foldr (λ g acc, py_round g + acc) 0 gains.

Definition round_of_sum (gains : list Q) : Z :=
  py_round (foldr Qplus 0%Q gains).

(** The records a list of files yields, in the order of the files: a
    file whose extraction returns [None] gives none. *)
Definition record_of (env : Env) (igc_path : Path) : option FlightRecord :=
  match snd (parse_flight_details env igc_path) with
  | Ok (Some r) => Some r
  | _ => None
  end.

Definition extracted (env : Env) (files : list Path) : list FlightRecord :=
  omap (record_of env) files.

(** Rows of one date. *)
Definition key_eqb (a b : Z * Z * Z) : bool :=
  let '(y1, m1, d1) := a in
  let '(y2, m2, d2) := b in
  (y1 =? y2) && (m1 =? m2) && (d1 =? d2).

Definition on_date (k : Z * Z * Z) (r : FlightRecord) : bool :=
  key_eqb (date_key r) k.

Definition date_le (a b : FlightRecord) : Prop := date_leb a b = true.

(** The first element of a list among those of least key. *)
Fixpoint first_min {A} (key : A → Z) (l : list A) : option A :=
  match l with
  | [] => None
  | x :: l' =>
      match first_min key l' with
      | Some m => if key x <=? key m then Some x else Some m
      | None => Some x
      end
  end.

(** The location a query over the coordinate of a fix itself would
    start from. *)
Definition location_of_fix (env : Env) (f : Fix) : Location :=
  {| raw_lat := str_float env (lat f);
     raw_lon := str_float env (lon f);
     raw_address := None |}.

(** A location with another address, or none. *)
Definition with_address (address : option (gmap string string))
    (location : option Location) : option Location :=
  match location with
  | Some l => Some {| raw_lat := raw_lat l; raw_lon := raw_lon l;
                      raw_address := address |}
  | None => None
  end.

(** A node that lacks the elevation or the name. *)
Definition untagged (node : Node) : Prop :=
  tags node !! "ele" = None ∨ tags node !! "name" = None.

(** The lookups that give no peak: no location, a query that raises, or
    an answer in which no node has both an elevation and a name (an
    empty answer among them). *)
Inductive lookup_yields_nothing (env : Env) (radius : Z)
  : option Location → Prop :=
  | no_location : lookup_yields_nothing env radius None
  | query_raises loc e :
      overpass_query env radius (raw_lat loc) (raw_lon loc) = Raise e →
      lookup_yields_nothing env radius (Some loc)
  | nothing_tagged loc nodes :
      overpass_query env radius (raw_lat loc) (raw_lon loc) = Ok nodes →
      Forall untagged nodes →
      lookup_yields_nothing env radius (Some loc).

(** ** Sample collaborators for the concrete runs *)

Module Sample.

(** Along a meridian a degree of latitude is about 111.2 km. *)
Definition meridian_distance (p : Q * Q) (q : string * string) : result Q :=
  match float_ascii (fst q) with
  | Ok (FNum x) => Ok (Qabs (fst p - x) * (1112 # 10))%Q
  | Ok _ => Raise (ValueError "not a finite latitude")
  | Raise e => Raise e
  end.

Definition float_text (q : Q) : string :=
  if Qeq_bool q (4725 # 100) then "47.25"
  else if Qeq_bool q (115 # 10) then "11.5"
  else if Qeq_bool q (472 # 10) then "47.2"
  else if Qeq_bool q (114 # 10) then "11.4"
  else "0.0".

Definition make_env (files : list Path)
    (parser : Path → result Flight)
    (geocoder : string → result (option Location))
    (peaks : Z → string → string → result (list Node))
    (offset : Z) : Env :=
  {| create_from_file := parser;
     reverse := geocoder;
     overpass_query := peaks;
     distance := meridian_distance;
     utcoffset := λ _, offset;
     str_float := float_text;
     rglob := λ _ _, files;
     csv_write := λ _ _, Ok tt;
     float_beyond_ascii := λ s,
       Raise (ValueError ("could not convert string to float: '" +:+ s +:+ "'"));
     repr_beyond_ascii := λ s, "'" +:+ s +:+ "'" |}.

Definition takeoff : Fix :=
  {| lat := 4725 # 100; lon := 115 # 10;
     timestamp := 1717243500; gnss_alt := 1800 # 1 |}.
Definition landing : Fix :=
  {| lat := 472 # 10; lon := 114 # 10;
     timestamp := 1717250000; gnss_alt := 600 # 1 |}.

Definition climb (gain velocity : Q) : Thermal :=
  {| alt_change := gain; vertical_velocity := velocity |}.

(** 1 June 2024, 12:05 to 13:53 UTC, two thermals. *)
Definition flight_june : Flight :=
  {| valid := true; notes := []; glider_type := "Advance Pi 3";
     takeoff_fix := takeoff; landing_fix := landing;
     thermals := [climb (1306 # 10) (1 # 1); climb (2006 # 10) (2 # 1)] |}.

(** 15 August 2023, 10:00 to 11:00 UTC, no thermal. *)
Definition flight_august : Flight :=
  {| valid := true; notes := []; glider_type := "Advance Pi 3";
     takeoff_fix :=
       {| lat := 4725 # 100; lon := 115 # 10;
          timestamp := 1692093600; gnss_alt := 1800 # 1 |};
     landing_fix :=
       {| lat := 472 # 10; lon := 115 # 10;
          timestamp := 1692097200; gnss_alt := 600 # 1 |};
     thermals := [] |}.

Definition flight_invalid : Flight :=
  {| valid := false; notes := ["Error: too few fixes"]; glider_type := "";
     takeoff_fix := takeoff; landing_fix := takeoff; thermals := [] |}.

Definition a_igc : Path := ["flights"; "a.igc"].
Definition b_igc : Path := ["flights"; "b.igc"].
Definition c_igc : Path := ["flights"; "2023"; "c.IGC"].

(** [a.igc] and [c.IGC] are valid tracks, anything else is invalid. *)
Definition parser (p : Path) : result Flight :=
  if String.eqb (name p) "a.igc" then Ok flight_june
  else if String.eqb (name p) "c.IGC" then Ok flight_august
  else Ok flight_invalid.

Definition place (la lo : string) (address : gmap string string) : Location :=
  {| raw_lat := la; raw_lon := lo; raw_address := Some address |}.

Definition innsbruck : Location :=
  place "47.2692" "11.4041" {[ "city" := "Innsbruck"; "village" := "Igls" ]}.

Definition geocoder (query : string) : result (option Location) :=
  Ok (Some innsbruck).

Definition peak (nm ele : string) (la : Q) : Node :=
  {| tags := {[ "name" := nm; "ele" := ele ]};
     node_lat := la; node_lon := 114041 # 10000 |}.

(** Serles lies about 0.9 km from the query point, Nockspitze about
    0.2 km; the service lists Serles first. *)
Definition serles : Node := peak "Serles" "2717 m" (472772 # 10000).
Definition nockspitze : Node := peak "Nockspitze" "2,404 Meter" (472710 # 10000).
(** A peak whose elevation is given in feet. *)
Definition in_feet : Node := peak "Patscherkofel" "7369 ft" (472700 # 10000).
(** A node without a name. *)
Definition unnamed : Node :=
  {| tags := {[ "ele" := "2000" ]};
     node_lat := 472700 # 10000; node_lon := 114041 # 10000 |}.

Definition peaks (radius : Z) (la lo : string) : result (list Node) :=
  Ok [serles; nockspitze].

Definition env : Env := make_env [a_igc; b_igc; c_igc] parser geocoder peaks 0.

(** The table after the third file of [env]. *)
Definition book : DataFrame :=
  {| columns := record_keys;
     rows := stable_sort date_leb (extracted env [a_igc; b_igc; c_igc]) |}.

(** A geocoder that finds nothing at the landing point of [a.igc]. *)
Definition geocoder_gap (query : string) : result (option Location) :=
  if String.eqb query "47.2,11.4" then Ok None else Ok (Some innsbruck).

Definition env_gap : Env := make_env [a_igc; c_igc] parser geocoder_gap peaks 0.

(** Answers of the peak service: one node without a name; a peak with
    its elevation in feet before a well-formed one; the well-formed one
    alone. *)
Definition env_untagged : Env :=
  make_env [a_igc] parser geocoder (λ _ _ _, Ok [unnamed]) 0.
Definition env_feet : Env :=
  make_env [a_igc] parser geocoder (λ _ _ _, Ok [in_feet; nockspitze]) 0.
Definition env_nockspitze : Env :=
  make_env [a_igc] parser geocoder (λ _ _ _, Ok [nockspitze]) 0.

(** The peak service knows one peak around the take-off fix and two
    around the place the geocoder answers with. *)
Definition glungezer : Node := peak "Glungezer" "2677" (472510 # 10000).
Definition peaks_by_centre (radius : Z) (la lo : string) : result (list Node) :=
  if String.eqb la "47.25" then Ok [glungezer] else Ok [serles; nockspitze].
Definition env_town : Env :=
  make_env [a_igc] parser geocoder peaks_by_centre 0.

(** A morning flight where local time is eleven hours ahead of UTC:
    5 January 2024, 23:30 to 23:50 UTC. *)
Definition flight_january : Flight :=
  {| valid := true; notes := []; glider_type := "Advance Pi 3";
     takeoff_fix :=
       {| lat := 4725 # 100; lon := 115 # 10;
          timestamp := 1704497400; gnss_alt := 1800 # 1 |};
     landing_fix :=
       {| lat := 472 # 10; lon := 115 # 10;
          timestamp := 1704498600; gnss_alt := 600 # 1 |};
     thermals := [] |}.
Definition d_igc : Path := ["flights"; "d.igc"].
Definition env_ahead : Env :=
  make_env [d_igc] (λ _, Ok flight_january) geocoder peaks 39600.

(** The invalid track comes first. *)
Definition env_invalid_first : Env :=
  make_env [b_igc; a_igc] parser geocoder peaks 0.

End Sample.

(** ** Reading a trace *)

(** The table [parse_flights] writes for a list of records. *)
Definition table (flight_dicts : list FlightRecord) : DataFrame :=
  {| columns := record_keys; rows := stable_sort date_leb flight_dicts |}.

(** The tables written, with their paths, and the lines printed, each in
    the order of the trace. *)
Definition writes (t : list event) : list (Path * DataFrame) :=
  omap (λ e, match e with ToCsv p df => Some (p, df) | Stdout _ => None end) t.

Definition printed (t : list event) : list string :=
  omap (λ e, match e with Stdout l => Some l | ToCsv _ _ => None end) t.

(** The extraction of a file returns, with a record or with [None]. *)
Definition extraction_returns (env : Env) (igc_path : Path) : Prop :=
  is_ok (snd (parse_flight_details env igc_path)) = true.

(** Every write of a loop over [files] that starts with the records
    [flight_dicts] succeeds: the [k]-th table is that of the records so
    far and of the first [k] files. *)
Definition writes_succeed (env : Env) (out : Path)
    (flight_dicts : list FlightRecord) (files : list Path) : Prop :=
  ∀ k, (1 ≤ k ≤ length files)%nat →
       csv_write env out (table (flight_dicts ++ extracted env (take k files)))
       = Ok tt.

(** ** The calendar, one cycle of 400 years at a time *)

(** For a day of the cycle (0 is 1 March of a year divisible by 400):
    the year of the cycle, month and day that [civil_from_days] finds are
    in range, and [days_from_civil] finds the day of the cycle again. *)
Definition cycle_day_ok (doe : Z) : bool :=
  let yoe := (doe - doe / 1460 + doe / 36524 - doe / 146096) / 365 in
  let doy := doe - (365 * yoe + yoe / 4 - yoe / 100) in
  let mp := (5 * doy + 2) / 153 in
  let d := doy - (153 * mp + 2) / 5 + 1 in
  let m := if mp <? 10 then mp + 3 else mp - 9 in
  (0 <=? yoe) && (yoe <=? 399) && (1 <=? m) && (m <=? 12)
  && (1 <=? d) && (d <=? 31)
  && (yoe * 365 + yoe / 4 - yoe / 100
      + ((153 * (if 2 <? m then m - 3 else m + 9) + 2) / 5 + d - 1) =? doe).

(** Whether a test holds for the [n] integers from [start] on. *)
Fixpoint holds_from (test : Z → bool) (n : nat) (start : Z) : bool :=
  match n with
  | O => true
  | S n' => test start && holds_from test n' (start + 1)
  end.

(** ** Further notions for the resolver and the record *)

(** A node that enters [peak_list]: it has both tags. *)
Definition qualifies (node : Node) : bool :=
  match tags node !! "ele", tags node !! "name" with
  | Some _, Some _ => true
  | _, _ => false
  end.

(** What [peak_list] holds of a node. *)
Definition peak_from (env : Env) (loc : Location) (node : Node) (p : Peak) : Prop :=
  tags node !! "name" = Some (peak_name p) ∧
  is_Some (tags node !! "ele") ∧
  distance env (node_lat node, node_lon node) (raw_lat loc, raw_lon loc)
  = Ok (peak_distance p) ∧
  latitude p = node_lat node ∧ longitude p = node_lon node.

(** Further sample collaborators. *)
Module Cases.

(** A geocoder that finds nothing at the take-off point of the sample
    flights, and one whose answers carry no address. *)
Definition geocoder_no_takeoff (query : string) : result (option Location) :=
  if String.eqb query "47.25,11.5" then Ok None else Ok (Some Sample.innsbruck).

Definition env_no_takeoff : Env :=
  Sample.make_env [Sample.a_igc] Sample.parser geocoder_no_takeoff Sample.peaks 0.

Definition bare_place : Location :=
  {| raw_lat := "47.2692"; raw_lon := "11.4041"; raw_address := None |}.

Definition env_no_address : Env :=
  Sample.make_env [Sample.a_igc] Sample.parser (λ _, Ok (Some bare_place))
    Sample.peaks 0.


(** The geocoder finds nothing at the landing point of the second of
    three files. *)
Definition env_gap_second : Env :=
  Sample.make_env [Sample.c_igc; Sample.a_igc; Sample.b_igc] Sample.parser
    Sample.geocoder_gap Sample.peaks 0.

(** The sample collaborators with an output folder that does not exist:
    every write raises. *)
Definition no_such_folder : exn :=
  OSError "Cannot save file into a non-existent directory: 'nodir'".

Definition env_nodir : Env :=
  {| create_from_file := create_from_file Sample.env;
     reverse := reverse Sample.env;
     overpass_query := overpass_query Sample.env;
     distance := distance Sample.env;
     utcoffset := utcoffset Sample.env;
     str_float := str_float Sample.env;
     rglob := rglob Sample.env;
     csv_write := λ _ _, Raise no_such_folder;
     float_beyond_ascii := float_beyond_ascii Sample.env;
     repr_beyond_ascii := repr_beyond_ascii Sample.env |}.

End Cases.

(** ** [gui_app.py] *)

(** The log panel, a [tk.Text], by its text and its state.  Where the
    view stands is not modelled, so [see('end')] and [update_idletasks]
    leave the model as it is. *)
Inductive widget_state : Type := Normal | Disabled.

Record TextBox : Type := {
  box_text : string;
  box_state : widget_state
}.

Definition configure_state (st : widget_state) (textbox : TextBox) : TextBox :=
  {| box_text := box_text textbox; box_state := st |}.

(** [textbox.insert('end', s)]: a disabled widget ignores it. *)
Definition insert_end (s : string) (textbox : TextBox) : TextBox :=
  match box_state textbox with
  | Normal => {| box_text := box_text textbox +:+ s; box_state := Normal |}
  | Disabled => textbox
  end.

(** [StdoutRedirector.write] and [StdoutRedirector.flush] *)
Definition write (textbox : TextBox) (s : string) : TextBox :=
  let textbox := configure_state Normal textbox in
  let textbox := insert_end s textbox in
  configure_state Disabled textbox.

Definition flush (textbox : TextBox) : TextBox := textbox.

(** [print(line)] once [sys.stdout] is the redirector: the line is
    written, then the line end. *)
Definition newline : string := String (ascii_of_nat 10) EmptyString.

Definition print_to (textbox : TextBox) (line : string) : TextBox :=
  write (write textbox line) newline.

(** The lines of a trace, printed to the panel one after the other. *)
Definition replay (t : list event) (textbox : TextBox) : TextBox :=
  fold_left (λ b e, match e with
                    | Stdout line => print_to b line
                    | ToCsv _ _ => b
                    end) t textbox.

(** The window: the two folder variables with their labels, the entry
    of the file name, the log panel. *)
Record Gui : Type := {
  igc_folder_var : string;
  select_igc_folder_label : string;
  csv_folder_var : string;
  select_csv_folder_label : string;
  csv_filename_entry : string;
  text_box : TextBox
}.

Definition no_folder_selected : string := "No folder selected.".

(** [Gui.__init__] *)
Definition gui_init : Gui :=
  {| igc_folder_var := "";
     select_igc_folder_label := no_folder_selected;
     csv_folder_var := "";
     select_csv_folder_label := no_folder_selected;
     csv_filename_entry := "flightbook.csv";
     text_box := {| box_text := ""; box_state := Disabled |} |}.

(** [Gui.set_folder], on the value of the variable and the text of the
    label; [askdirectory] is what the dialog returned, the empty text
    when it was cancelled. *)
Definition set_folder (askdirectory : string)
    (folder_path_target label : string) : string * string :=
  let folder_path_target :=
    if truthy askdirectory then askdirectory else folder_path_target in
  let label :=
    if truthy folder_path_target then folder_path_target else label in
  (folder_path_target, label).

(** What the user can do: the two folder buttons, with the answer of the
    dialog; typing into the entry; the start button. *)
Inductive action : Type :=
  | Select_igc_folder (askdirectory : string)
  | Select_csv_folder (askdirectory : string)
  | Edit_filename (text : string)
  | Start.

(** One action: the window after it and the tables it wrote. *)
Definition click (env : Env) (g : Gui) (a : action)
  : Gui * list (Path * DataFrame) :=
  match a with
  | Select_igc_folder d =>
      let '(v, l) := set_folder d (igc_folder_var g) (select_igc_folder_label g) in
      ({| igc_folder_var := v; select_igc_folder_label := l;
          csv_folder_var := csv_folder_var g;
          select_csv_folder_label := select_csv_folder_label g;
          csv_filename_entry := csv_filename_entry g;
          text_box := text_box g |}, [])
  | Select_csv_folder d =>
      let '(v, l) := set_folder d (csv_folder_var g) (select_csv_folder_label g) in
      ({| igc_folder_var := igc_folder_var g;
          select_igc_folder_label := select_igc_folder_label g;
          csv_folder_var := v; select_csv_folder_label := l;
          csv_filename_entry := csv_filename_entry g;
          text_box := text_box g |}, [])
  | Edit_filename text =>
      ({| igc_folder_var := igc_folder_var g;
          select_igc_folder_label := select_igc_folder_label g;
          csv_folder_var := csv_folder_var g;
          select_csv_folder_label := select_csv_folder_label g;
          csv_filename_entry := text;
          text_box := text_box g |}, [])
  | Start =>
      let run := parse_flights env (igc_folder_var g) (csv_folder_var g)
                   (csv_filename_entry g) in
      ({| igc_folder_var := igc_folder_var g;
          select_igc_folder_label := select_igc_folder_label g;
          csv_folder_var := csv_folder_var g;
          select_csv_folder_label := select_csv_folder_label g;
          csv_filename_entry := csv_filename_entry g;
          text_box := replay (fst run) (text_box g) |},
       writes (fst run))
  end.

(** The window after a list of actions, from the fresh one. *)
Definition session (env : Env) (actions : list action) : Gui :=
  fold_left (λ g a, fst (click env g a)) actions gui_init.

(** The folder a list of dialog answers leaves selected: the last answer
    that is not a cancellation. *)
Definition last_choice (answers : list string) : string :=
  List.last (List.filter truthy answers) "".

Definition igc_answers (actions : list action) : list string :=
  omap (λ a, match a with Select_igc_folder d => Some d | _ => None end) actions.

Definition csv_answers (actions : list action) : list string :=
  omap (λ a, match a with Select_csv_folder d => Some d | _ => None end) actions.

(** What a label shows for the value of its variable. *)
Definition label_for (folder : string) : string :=
  if truthy folder then folder else no_folder_selected.

(** ** Whole numbers as texts *)

(** A text of decimal digits, at least one, and the number it writes. *)
Definition all_digits (s : string) : Prop :=
  s ≠ "" ∧ Forall (λ c, is_digit c = true) (list_ascii_of_string s).

Definition number_of (s : string) : Z :=
  fold_left (λ acc c, acc * 10 + digit_value c) (list_ascii_of_string s) 0.

(** What the resolver does to the text of an elevation before it reads
    it as a number. *)
Definition normalise_elevation (text : string) : string :=
  replace " Meter" "" (translate tr text).

(** * Properties *)

(** ** The stable sort *)

Section StableSortFacts.
Context {A : Type} (leb : A → A → bool).
Let R (a b : A) : Prop := leb a b = true.

Hypothesis leb_total : ∀ a b, leb a b = false → leb b a = true.
Hypothesis leb_trans : ∀ a b c, leb a b = true → leb b c = true → leb a c = true.

Lemma insert_sorted_perm x l : insert_sorted leb x l ≡ₚ x :: l.
Proof using Type.
  induction l as [|y l IH]; simpl; [done|].
  destruct (leb x y); [done|].
  rewrite IH. apply Permutation_swap.
Qed.

Lemma stable_sort_perm l : stable_sort leb l ≡ₚ l.
Proof using Type.
  induction l as [|x l IH]; simpl; [done|].
  by rewrite insert_sorted_perm, IH.
Qed.

Lemma insert_sorted_strongly x l :
  StronglySorted R l → StronglySorted R (insert_sorted leb x l).
Proof using leb_total leb_trans.
  induction 1 as [|y l Hs IH Hall]; simpl.
  - repeat constructor.
  - destruct (leb x y) eqn:Hxy.
    + constructor; [by constructor|].
      constructor; [done|].
      eapply Forall_impl; [exact Hall|].
      intros z Hyz. by apply (leb_trans x y z).
    + constructor; [done|].
      rewrite insert_sorted_perm.
      constructor; [by apply leb_total | done].
Qed.

Lemma stable_sort_strongly l : StronglySorted R (stable_sort leb l).
Proof using leb_total leb_trans.
  induction l; simpl; [constructor | by apply insert_sorted_strongly].
Qed.

(** A class of elements that are pairwise in order keeps the order it
    had before the sort. *)
Lemma insert_sorted_filter (P : A → bool) x l :
  (∀ a b, P a = true → P b = true → leb a b = true) →
  List.filter P (insert_sorted leb x l) = List.filter P (x :: l).
Proof using Type.
  intros HP. induction l as [|y l IH]; [done|].
  simpl insert_sorted. destruct (leb x y) eqn:Hxy; [done|].
  simpl in *. rewrite IH.
  destruct (P x) eqn:Hx, (P y) eqn:Hy; try done.
  rewrite (HP x y Hx Hy) in Hxy. done.
Qed.

Lemma stable_sort_filter (P : A → bool) l :
  (∀ a b, P a = true → P b = true → leb a b = true) →
  List.filter P (stable_sort leb l) = List.filter P l.
Proof using Type.
  intros HP. induction l as [|x l IH]; [done|].
  simpl stable_sort. rewrite insert_sorted_filter by done.
  simpl. by rewrite IH.
Qed.

End StableSortFacts.

(** The sorted list starts with the first element of least key. *)
Lemma stable_sort_head {A} (key : A → Z) (l : list A) :
  head (stable_sort (λ a b, key a <=? key b) l) = first_min key l.
Proof.
  induction l as [|x l IH]; [done|].
  simpl. rewrite <- IH.
  destruct (stable_sort _ l) as [|m s]; [done|].
  simpl. by destruct (key x <=? key m).
Qed.

(** ** The order of the dates *)

Lemma key_leb_spec y1 m1 d1 y2 m2 d2 :
  key_leb (y1, m1, d1) (y2, m2, d2) = true ↔
  y1 < y2 ∨ y1 = y2 ∧ (m1 < m2 ∨ m1 = m2 ∧ d1 <= d2).
Proof.
  unfold key_leb.
  rewrite !orb_true_iff, !andb_true_iff, !orb_true_iff, !andb_true_iff.
  rewrite !Z.ltb_lt, !Z.eqb_eq, Z.leb_le. tauto.
Qed.

Lemma key_eqb_spec a b : key_eqb a b = true ↔ a = b.
Proof.
  destruct a as [[y1 m1] d1], b as [[y2 m2] d2]. unfold key_eqb.
  rewrite !andb_true_iff, !Z.eqb_eq. split.
  - intros [[-> ->] ->]. done.
  - intros [= -> -> ->]. done.
Qed.

Lemma date_leb_total a b : date_leb a b = false → date_leb b a = true.
Proof.
  unfold date_leb. destruct (date_key a) as [[y1 m1] d1], (date_key b) as [[y2 m2] d2].
  intros H. apply not_true_iff_false in H.
  rewrite key_leb_spec in *. lia.
Qed.

Lemma date_leb_trans a b c :
  date_leb a b = true → date_leb b c = true → date_leb a c = true.
Proof.
  unfold date_leb.
  destruct (date_key a) as [[y1 m1] d1], (date_key b) as [[y2 m2] d2],
    (date_key c) as [[y3 m3] d3].
  rewrite !key_leb_spec. lia.
Qed.

Lemma on_date_leb k a b :
  on_date k a = true → on_date k b = true → date_leb a b = true.
Proof.
  unfold on_date, date_leb. rewrite !key_eqb_spec. intros -> ->.
  destruct k as [[y m] d]. rewrite key_leb_spec. lia.
Qed.

(** ** The table and its sort *)

Lemma sort_values_from_dict flight_dicts :
  sort_values date_columns (from_dict flight_dicts) =
  match flight_dicts with
  | [] => Raise (KeyError "Year")
  | _ :: _ => Ok {| columns := record_keys;
                    rows := stable_sort date_leb flight_dicts |}
  end.
Proof. destruct flight_dicts; reflexivity. Qed.

(** ** How [parse_flight_details] can end *)

Lemma parse_flight_details_cases env igc_path :
  (∃ e, parse_flight_details env igc_path = ([], Raise e)) ∨
  (∃ r, parse_flight_details env igc_path = ([], Ok (Some r))) ∨
  (∃ line, parse_flight_details env igc_path = ([Stdout line], Ok None)).
Proof.
  unfold parse_flight_details, lift, bind, print, ret.
  destruct (create_from_file env igc_path) as [flight|e]; [|eauto].
  destruct (valid flight); [|eauto].
  destruct (flight_stats env igc_path flight); eauto.
Qed.

(** A valid flight's record is the one [flight_stats] computes. *)
Lemma parse_flight_details_record env igc_path t r :
  parse_flight_details env igc_path = (t, Ok (Some r)) →
  ∃ flight, create_from_file env igc_path = Ok flight ∧ valid flight = true ∧
            flight_stats env igc_path flight = Ok r.
Proof.
  unfold parse_flight_details, lift, bind, print, ret.
  destruct (create_from_file env igc_path) as [flight|e]; [|done].
  destruct (valid flight) eqn:Hv; [|done].
  destruct (flight_stats env igc_path flight) eqn:Hs; [|done].
  simpl. intros [= <- <-]. by exists flight.
Qed.

(** ** The loop over the files *)

Definition progress_line (total i : nat) (igc_path : Path) : string :=
  "Processing flight " +:+ pretty (i + 1)%nat +:+ "/"
  +:+ pretty total +:+ " " +:+ name igc_path.

(** One turn, by the way the extraction of the file ends. *)
Lemma process_files_raise env out total i igc_path rest ds t e :
  parse_flight_details env igc_path = (t, Raise e) →
  process_files env out total i (igc_path :: rest) ds =
  (Stdout (progress_line total i igc_path) :: t, Raise e).
Proof. intros H. simpl. rewrite H. reflexivity. Qed.

Lemma process_files_step env out total i igc_path rest ds t o :
  parse_flight_details env igc_path = (t, Ok o) →
  let ds' := match o with Some d => ds ++ [d] | None => ds end in
  process_files env out total i (igc_path :: rest) ds =
  match ds' with
  | [] => (Stdout (progress_line total i igc_path) :: t, Raise (KeyError "Year"))
  | _ :: _ =>
      let df := {| columns := record_keys; rows := stable_sort date_leb ds' |} in
      match csv_write env out df with
      | Ok _ =>
          let '(t', r) := process_files env out total (S i) rest ds' in
          (Stdout (progress_line total i igc_path) :: t ++ ToCsv out df :: t', r)
      | Raise e => (Stdout (progress_line total i igc_path) :: t, Raise e)
      end
  end.
Proof.
  intros H ds'. simpl process_files. rewrite H.
  unfold bind. cbn beta iota. fold ds'. clearbody ds'.
  rewrite sort_values_from_dict. unfold progress_line, to_csv.
  destruct ds' as [|d l]; [by rewrite app_nil_r|].
  cbv zeta. destruct (csv_write env out _) as [[]|ew]; [|by rewrite app_nil_r].
  by destruct (process_files env out total (S i) rest (d :: l)) as [t' r].
Qed.

Lemma stdout_only_trace env igc_path path df :
  ¬ In (ToCsv path df) (fst (parse_flight_details env igc_path)).
Proof.
  destruct (parse_flight_details_cases env igc_path) as [[e ->]|[[r ->]|[l ->]]];
    simpl; intuition discriminate.
Qed.

Lemma extracted_cons env igc_path files :
  extracted env (igc_path :: files) =
  match record_of env igc_path with
  | Some r => r :: extracted env files
  | None => extracted env files
  end.
Proof. reflexivity. Qed.

(** Every table written is the sorted list of the records of the files
    read so far. *)
Lemma process_files_writes env out total files :
  ∀ i ds path df,
    In (ToCsv path df) (fst (process_files env out total i files ds)) →
    ∃ n, path = out ∧
         df = {| columns := record_keys;
                 rows := stable_sort date_leb (ds ++ extracted env (take n files)) |}.
Proof.
  induction files as [|p rest IH]; intros i ds path df Hin; [done|].
  pose proof (stdout_only_trace env p path df) as Hno.
  destruct (parse_flight_details env p) as [t [o|e]] eqn:Hp.
  - pose proof (process_files_step env out total i p rest ds t o Hp) as Hstep.
    cbv zeta in Hstep.
    assert (Hrec : record_of env p = o).
    { unfold record_of. rewrite Hp. simpl. by destruct o. }
    destruct (match o with Some d => ds ++ [d] | None => ds end) as [|d l] eqn:Hds.
    + rewrite Hstep in Hin. simpl in Hin, Hno.
      destruct Hin as [Hin|Hin]; [discriminate | done].
    + destruct (csv_write env out _) as [[]|ew] in Hstep; cycle 1.
      { rewrite Hstep in Hin. simpl in Hin, Hno.
        destruct Hin as [Hin|Hin]; [discriminate | done]. }
      destruct (process_files env out total (S i) rest (d :: l)) as [t' r] eqn:Hrest.
      rewrite Hstep in Hin. simpl in Hin, Hno.
      destruct Hin as [Hin|Hin]; [discriminate|].
      apply in_app_or in Hin. destruct Hin as [Hin|Hin]; [done|].
      destruct Hin as [Hin|Hin].
      * injection Hin as <- <-. exists 1%nat. split; [done|].
        change (insert_sorted date_leb d (stable_sort date_leb l))
          with (stable_sort date_leb (d :: l)).
        f_equal. f_equal. change (take 1 (p :: rest)) with [p].
        rewrite extracted_cons, Hrec, <- Hds.
        destruct o; [done | by rewrite app_nil_r].
      * specialize (IH (S i) (d :: l) path df).
        rewrite Hrest in IH. destruct (IH Hin) as (n & -> & ->).
        exists (S n). split; [done|]. f_equal. f_equal.
        change (take (S n) (p :: rest)) with (p :: take n rest).
        rewrite extracted_cons, Hrec, <- Hds.
        destruct o; [by rewrite <- app_assoc | done].
  - rewrite (process_files_raise env out total i p rest ds t e Hp) in Hin.
    simpl in Hin, Hno. destruct Hin as [Hin|Hin]; [discriminate | done].
Qed.

(** The writes of a whole run are those of its loop. *)
Lemma parse_flights_writes env igc_folder output_folder output_filename path df :
  In (ToCsv path df)
     (fst (parse_flights env igc_folder output_folder output_filename)) →
  let files := rglob env igc_folder igc_pattern in
  In (ToCsv path df)
     (fst (process_files env [output_folder; output_filename]
             (length files) 0 files [])).
Proof.
  unfold parse_flights.
  destruct (String.eqb igc_folder "").
  { simpl. intuition discriminate. }
  destruct (String.eqb output_folder "").
  { simpl. intuition discriminate. }
  destruct (rglob env igc_folder igc_pattern) as [|p files] eqn:Hfiles.
  { simpl. intuition discriminate. }
  cbv zeta. unfold bind, print.
  destruct (process_files _ _ _ _ _ _) as [t [ds|e]]; simpl.
  - intros [H|H]; [discriminate|].
    apply in_app_or in H. destruct H as [H|[H|[]]]; [done | discriminate].
  - intros [H|H]; [discriminate | done].
Qed.

(** C9: every table a run writes is in ascending order of (year, month,
    day); it holds the records of the files read so far, whatever the
    order in which they came, and rows of one date stand in it in the
    order in which they were appended. *)
Theorem persisted_table_sorted env igc_folder output_folder output_filename
    path df :
  In (ToCsv path df)
     (fst (parse_flights env igc_folder output_folder output_filename)) →
  ∃ n, let flight_dicts :=
         extracted env (take n (rglob env igc_folder igc_pattern)) in
       StronglySorted date_le (rows df) ∧
       rows df ≡ₚ flight_dicts ∧
       ∀ k, List.filter (on_date k) (rows df)
            = List.filter (on_date k) flight_dicts.
Proof.
  intros H. apply parse_flights_writes in H. cbv zeta in H.
  apply process_files_writes in H. destruct H as (n & _ & ->).
  exists n. cbv zeta. simpl rows. split; [|split].
  - apply stable_sort_strongly; [apply date_leb_total | apply date_leb_trans].
  - apply stable_sort_perm.
  - intros k. apply stable_sort_filter, on_date_leb.
Qed.

Lemma persisted_table_sorted_witness :
  In (ToCsv ["out"; "flightbook.csv"] Sample.book)
     (fst (parse_flights Sample.env "flights" "out" "flightbook.csv")) ∧
  ∃ n, let flight_dicts :=
         extracted Sample.env (take n (rglob Sample.env "flights" igc_pattern)) in
       StronglySorted date_le (rows Sample.book) ∧
       rows Sample.book ≡ₚ flight_dicts ∧
       ∀ k, List.filter (on_date k) (rows Sample.book)
            = List.filter (on_date k) flight_dicts.
Proof.
  assert (H : In (ToCsv ["out"; "flightbook.csv"] Sample.book)
                 (fst (parse_flights Sample.env "flights" "out" "flightbook.csv"))).
  { vm_compute. do 7 right. left. reflexivity. }
  split; [exact H|].
  exact (persisted_table_sorted Sample.env "flights" "out" "flightbook.csv"
           ["out"; "flightbook.csv"] Sample.book H).
Defined.

(** In the sample run the flight of August 2023, read last, is written
    first. *)
Example book_order :
  map IGC_File (rows Sample.book) = ["c.IGC"; "a.igc"].
Proof. reflexivity. Qed.

(** ** Failures in the loop *)

(** A file whose extraction raises ends the loop: the files after it
    change nothing, and the loop ends in an exception, that of the
    extraction when the turns before it return and the one that ended
    them otherwise. *)
Lemma process_files_failure env out total pre :
  ∀ i ds igc_path post t e,
    parse_flight_details env igc_path = (t, Raise e) →
    process_files env out total i (pre ++ igc_path :: post) ds
    = process_files env out total i (pre ++ [igc_path]) ds
    ∧ snd (process_files env out total i (pre ++ [igc_path]) ds)
      = Raise (match snd (process_files env out total i pre ds) with
               | Ok _ => e
               | Raise e0 => e0
               end).
Proof.
  induction pre as [|p pre IH]; intros i ds igc_path post t e H.
  - simpl app. by rewrite !(process_files_raise _ _ _ _ _ _ _ _ _ H).
  - rewrite <- !app_comm_cons.
    destruct (parse_flight_details env p) as [tp [o|ep]] eqn:Hp.
    + rewrite !(process_files_step _ _ _ _ _ _ _ _ _ Hp). cbv zeta.
      destruct (match o with Some d => ds ++ [d] | None => ds end) as [|d l];
        [done|].
      destruct (csv_write env out _) as [[]|ew]; [|done].
      destruct (IH (S i) (d :: l) igc_path post t e H) as [-> He'].
      destruct (process_files env out total (S i) (pre ++ [igc_path]) (d :: l))
        as [t' r].
      destruct (process_files env out total (S i) pre (d :: l)) as [t'' r''].
      done.
    + by rewrite !(process_files_raise _ _ _ _ _ _ _ _ _ Hp).
Qed.

(** Failures of the reverse geocoder are such exceptions: a call that
    raises, and an answer of [None] for the landing point. *)
Lemma geocoder_raise_propagates env igc_path flight e :
  create_from_file env igc_path = Ok flight →
  valid flight = true →
  reverse env (lat_lon env (takeoff_fix flight)) = Raise e →
  parse_flight_details env igc_path = ([], Raise e).
Proof.
  intros Hf Hv Hr. unfold parse_flight_details, lift, bind.
  rewrite Hf, Hv. unfold flight_stats. by rewrite Hr.
Qed.

Lemma geocoder_none_propagates env igc_path flight location_takeoff :
  create_from_file env igc_path = Ok flight →
  valid flight = true →
  reverse env (lat_lon env (takeoff_fix flight)) = Ok location_takeoff →
  is_ok (fromtimestamp env (timestamp (takeoff_fix flight))) = true →
  is_ok (fromtimestamp env (timestamp (landing_fix flight))) = true →
  reverse env (lat_lon env (landing_fix flight)) = Ok None →
  parse_flight_details env igc_path =
  ([], Raise (AttributeError "'NoneType' object has no attribute 'raw'")).
Proof.
  intros Hf Hv Ht Hdt Hdl Hl. unfold parse_flight_details, lift, bind.
  rewrite Hf, Hv. unfold flight_stats. rewrite Ht, Hl. simpl.
  destruct (fromtimestamp env (timestamp (takeoff_fix flight))); [|done].
  destruct (fromtimestamp env (timestamp (landing_fix flight))); [|done].
  done.
Qed.

(** C1, as the claim has it, fails: the geocoder finds nothing at the
    landing point of the first file, the second file is a valid track
    that would give a record, and the run ends at the first file with
    the exception, the second never read and nothing written. *)
Lemma failing_file_stops_run :
  is_Some (record_of Sample.env_gap Sample.c_igc) ∧
  parse_flights Sample.env_gap "flights" "out" "flightbook.csv" =
  ([Stdout "Starting."; Stdout "Processing flight 1/2 a.igc"],
   Raise (AttributeError "'NoneType' object has no attribute 'raw'")).
Proof. split; [vm_compute; eauto | reflexivity]. Qed.

(** An invalid track in a table that already has a row is skipped: the
    table is written again as it was and the loop goes on. *)
Lemma invalid_file_skipped env out total i igc_path rest d ds t :
  parse_flight_details env igc_path = (t, Ok None) →
  let df := {| columns := record_keys; rows := stable_sort date_leb (d :: ds) |} in
  csv_write env out df = Ok tt →
  process_files env out total i (igc_path :: rest) (d :: ds) =
  let '(t', r) := process_files env out total (S i) rest (d :: ds) in
  (Stdout (progress_line total i igc_path) :: t ++ ToCsv out df :: t', r).
Proof.
  intros H df Hw. rewrite (process_files_step _ _ _ _ _ _ _ _ _ H).
  cbv zeta. fold df. by rewrite Hw.
Qed.

(** With no row so far, the sort of the table raises instead. *)
Lemma invalid_file_on_empty_table env out total i igc_path rest t :
  parse_flight_details env igc_path = (t, Ok None) →
  process_files env out total i (igc_path :: rest) [] =
  (Stdout (progress_line total i igc_path) :: t, Raise (KeyError "Year")).
Proof. intros H. by rewrite (process_files_step _ _ _ _ _ _ _ _ _ H). Qed.

(** C2 at the failing input: the first of two files is an invalid track.
    Nothing is written; the run ends in the [KeyError] of the sort, and
    the valid second file is never read. *)
Theorem empty_table_not_persisted :
  parse_flights Sample.env_invalid_first "flights" "out" "flightbook.csv" =
  ([Stdout "Starting.";
    Stdout "Processing flight 1/2 b.igc";
    Stdout "Flight b.igc is invalid: ['Error: too few fixes']"],
   Raise (KeyError "Year")).
Proof. reflexivity. Qed.

(** ** The resolver of the nearest peak *)

Lemma peak_of_node_untagged env loc node :
  untagged node → peak_of_node env loc node = Ok None.
Proof.
  unfold peak_of_node. intros [-> | ->]; [done|].
  by destruct (tags node !! "ele").
Qed.

Lemma collect_peaks_untagged env loc nodes :
  Forall untagged nodes → ∀ acc, collect_peaks env loc nodes acc = Ok acc.
Proof.
  induction 1 as [|node nodes Hn _ IH]; intros acc; [done|].
  simpl. rewrite (peak_of_node_untagged _ _ _ Hn). simpl. apply IH.
Qed.

(** A node on which the loop raises makes the whole loop raise. *)
Lemma collect_peaks_raise env loc node e nodes :
  peak_of_node env loc node = Raise e →
  node ∈ nodes →
  ∀ acc, ∃ e', collect_peaks env loc nodes acc = Raise e'.
Proof.
  intros Hnode. induction nodes as [|n nodes IH]; intros Hin acc.
  - by apply elem_of_nil in Hin.
  - simpl. destruct (peak_of_node env loc n) as [p|e0] eqn:Hn; simpl; [|eauto].
    apply elem_of_cons in Hin. destruct Hin as [->|Hin]; [congruence|].
    by apply IH.
Qed.

Lemma first_min_none {A} (key : A → Z) l : first_min key l = None → l = [].
Proof.
  destruct l as [|x l]; [done|]. simpl.
  destruct (first_min key l); [by destruct (key x <=? key a) | done].
Qed.

(** What [first_min] picks: nothing before it is as small, nothing after
    it is smaller. *)
Lemma first_min_spec {A} (key : A → Z) l m :
  first_min key l = Some m →
  ∃ pre post, l = pre ++ m :: post ∧
              Forall (λ x, key m < key x) pre ∧
              Forall (λ x, key m <= key x) post.
Proof.
  revert m. induction l as [|x l IH]; intros m; [done|]. simpl.
  destruct (first_min key l) as [m'|] eqn:Hm.
  - destruct (IH m' eq_refl) as (pre & post & -> & Hpre & Hpost).
    destruct (key x <=? key m') eqn:Hx; intros [= <-].
    + apply Z.leb_le in Hx. exists [], (pre ++ m' :: post).
      split; [done|]. split; [constructor|].
      apply Forall_app. split.
      * eapply Forall_impl; [exact Hpre|]. simpl. lia.
      * constructor; [done|]. eapply Forall_impl; [exact Hpost|]. simpl. lia.
    + apply Z.leb_gt in Hx. exists (x :: pre), post.
      split; [done|]. split; [by constructor | done].
  - intros [= <-]. apply first_min_none in Hm as ->.
    exists [], []. by repeat constructor.
Qed.

(** The rule of the resolver: among the peaks with both tags, the first
    one in the order of the answer whose distance, cut to whole
    kilometres, is least. *)
Lemma closest_peak_rule env loc radius nodes peak_list :
  overpass_query env radius (raw_lat loc) (raw_lon loc) = Ok nodes →
  collect_peaks env loc nodes [] = Ok peak_list →
  find_closest_peak_to_location env (Some loc) radius =
  Ok (match first_min distance_key peak_list with
      | Some p => peak_name p
      | None => unknown_location
      end).
Proof.
  intros Hq Hc. unfold find_closest_peak_to_location, find_closest_peak_body.
  simpl. rewrite Hq. simpl. rewrite Hc. simpl.
  rewrite <- (stable_sort_head distance_key peak_list).
  unfold closer_eq. by destruct (stable_sort _ peak_list).
Qed.

(** A tie: the service lists Serles, about 0.9 km away, before
    Nockspitze, about 0.2 km away.  Both distances are cut to 0 km, and
    the resolver returns Serles, the first of the two in the answer. *)
Example tie_keeps_answer_order :
  ∃ far near,
    collect_peaks Sample.env Sample.innsbruck
      [Sample.serles; Sample.nockspitze] [] = Ok [far; near] ∧
    peak_name far = "Serles" ∧ peak_name near = "Nockspitze" ∧
    (peak_distance near < peak_distance far)%Q ∧
    distance_key near = distance_key far ∧
    find_closest_peak_to_location Sample.env (Some Sample.innsbruck) 2000
    = Ok "Serles".
Proof.
  eexists _, _. split; [vm_compute; reflexivity|].
  repeat split; reflexivity.
Qed.

(** C5: the resolver returns a label on every input, and the label is
    the fallback when there is no location, when the query raises, and
    when no node of the answer has both an elevation and a name. *)
Theorem resolver_never_raises env location radius :
  (∃ label, find_closest_peak_to_location env location radius = Ok label) ∧
  (lookup_yields_nothing env radius location →
   find_closest_peak_to_location env location radius = Ok unknown_location).
Proof.
  unfold find_closest_peak_to_location, try_except. split.
  - destruct (find_closest_peak_body env location radius); eauto.
  - unfold find_closest_peak_body.
    intros [|loc e Hq|loc nodes Hq Hn]; simpl; [done| |].
    + by rewrite Hq.
    + rewrite Hq. simpl. by rewrite (collect_peaks_untagged _ _ _ Hn).
Qed.

Lemma resolver_never_raises_witness :
  find_closest_peak_to_location Sample.env_untagged (Some Sample.innsbruck) 2000
  = Ok unknown_location.
Proof.
  apply (resolver_never_raises Sample.env_untagged (Some Sample.innsbruck) 2000).
  apply (nothing_tagged _ _ _ [Sample.unnamed]); [reflexivity|].
  constructor; [|constructor]. right. reflexivity.
Defined.

(** C6, as the code has it: a node with both tags whose elevation text
    [float] rejects makes the resolver answer with the fallback label,
    whatever the other nodes are. *)
Theorem bad_elevation_aborts_lookup env loc radius nodes node ele_text nm e :
  overpass_query env radius (raw_lat loc) (raw_lon loc) = Ok nodes →
  node ∈ nodes →
  tags node !! "ele" = Some ele_text →
  tags node !! "name" = Some nm →
  float env (replace " Meter" "" (translate tr ele_text)) = Raise e →
  find_closest_peak_to_location env (Some loc) radius = Ok unknown_location.
Proof.
  intros Hq Hin Hele Hname Hfloat.
  assert (Hnode : peak_of_node env loc node = Raise e).
  { unfold peak_of_node. by rewrite Hele, Hname, Hfloat. }
  destruct (collect_peaks_raise env loc node e nodes Hnode Hin []) as [e' He'].
  unfold find_closest_peak_to_location, find_closest_peak_body.
  simpl. rewrite Hq. simpl. by rewrite He'.
Qed.

Lemma bad_elevation_aborts_lookup_witness :
  find_closest_peak_to_location Sample.env_feet (Some Sample.innsbruck) 2000
  = Ok unknown_location.
Proof.
  apply (bad_elevation_aborts_lookup Sample.env_feet Sample.innsbruck 2000
           [Sample.in_feet; Sample.nockspitze] Sample.in_feet
           "7369 ft" "Patscherkofel"
           (ValueError "could not convert string to float: '7369 ft'")).
  - reflexivity.
  - apply elem_of_cons. by left.
  - reflexivity.
  - reflexivity.
  - reflexivity.
Defined.

(** C6, as the claim has it, fails: the answer holds a peak with its
    elevation in feet and the well-formed Nockspitze.  Alone, Nockspitze
    is found; with the other peak before it, the answer is the fallback
    label. *)
Lemma one_bad_candidate_spoils_lookup :
  is_ok (peak_of_node Sample.env_feet Sample.innsbruck Sample.in_feet) = false ∧
  find_closest_peak_to_location Sample.env_nockspitze (Some Sample.innsbruck) 2000
  = Ok "Nockspitze" ∧
  find_closest_peak_to_location Sample.env_feet (Some Sample.innsbruck) 2000
  = Ok "Unknown Location".
Proof. repeat split; reflexivity. Qed.

(** ** The record of a flight *)

(** What a record is made of. *)
Lemma flight_stats_inv env igc_path flight r :
  flight_stats env igc_path flight = Ok r →
  ∃ location_takeoff dt_takeoff location_landing dt_landing address label,
    reverse env (lat_lon env (takeoff_fix flight)) = Ok location_takeoff ∧
    fromtimestamp env (timestamp (takeoff_fix flight)) = Ok dt_takeoff ∧
    reverse env (lat_lon env (landing_fix flight)) = Ok location_landing ∧
    fromtimestamp env (timestamp (landing_fix flight)) = Ok dt_landing ∧
    raw_address_of location_landing = Ok address ∧
    find_closest_peak_to_location env location_takeoff 2000 = Ok label ∧
    Takeoff_Location r = label ∧
    Landing_Location r = location_landing_str address ∧
    Takeoff_Time_UTC r = strftime_HM dt_takeoff ∧
    Landing_Time_UTC r = strftime_HM dt_landing ∧
    (Day r, Month r, Year r) = (day dt_landing, month dt_landing, year dt_landing) ∧
    Thermal_gain_m r = fst (thermal_loop (thermals flight)).
Proof.
  unfold flight_stats.
  destruct (reverse env (lat_lon env (takeoff_fix flight))) as [lt|]; [|done].
  destruct (fromtimestamp env (timestamp (takeoff_fix flight))) as [dt|]; [|done].
  destruct (reverse env (lat_lon env (landing_fix flight))) as [ll|]; [|done].
  destruct (fromtimestamp env (timestamp (landing_fix flight))) as [dl|]; [|done].
  simpl.
  destruct (raw_address_of ll) as [address|] eqn:Ha; [|done]. simpl.
  destruct (thermal_loop (thermals flight)) as [gain velocities].
  destruct (find_closest_peak_to_location env lt 2000) as [label|] eqn:Hl; [|done].
  simpl. intros [= <-]. exists lt, dt, ll, dl, address, label.
  by repeat split.
Qed.

(** The times of a record are readings of the local clock. *)
Lemma record_times_local env igc_path flight r :
  flight_stats env igc_path flight = Ok r →
  let local f := datetime_of_seconds (timestamp f + utcoffset env (timestamp f)) in
  Takeoff_Time_UTC r = strftime_HM (local (takeoff_fix flight)) ∧
  Landing_Time_UTC r = strftime_HM (local (landing_fix flight)) ∧
  (Day r, Month r, Year r)
  = (day (local (landing_fix flight)), month (local (landing_fix flight)),
     year (local (landing_fix flight))).
Proof.
  intros H. apply flight_stats_inv in H.
  destruct H as (lt & dt & ll & dl & _ & _ & _ & Ht & _ & Hl & _ & _ & _ & _
                 & -> & -> & -> & _).
  unfold fromtimestamp in Ht, Hl. cbv zeta in *.
  destruct (_ && _) in Ht; [|done]. destruct (_ && _) in Hl; [|done].
  injection Ht as <-. injection Hl as <-. done.
Qed.

(** C3 at the failing input: local time is eleven hours ahead of UTC, and
    the flight lasts from 23:30 to 23:50 UTC on 5 January 2024.  The
    columns named UTC hold 10:30 and 10:50, and the date is 6 January. *)
Theorem local_time_in_utc_columns :
  ∃ r, record_of Sample.env_ahead Sample.d_igc = Some r ∧
       Takeoff_Time_UTC r = "10:30" ∧
       strftime_HM (utcfromtimestamp (timestamp (takeoff_fix Sample.flight_january)))
       = "23:30" ∧
       Landing_Time_UTC r = "10:50" ∧
       strftime_HM (utcfromtimestamp (timestamp (landing_fix Sample.flight_january)))
       = "23:50" ∧
       (Day r, Month r, Year r) = (6, 1, 2024) ∧
       (let utc := utcfromtimestamp (timestamp (landing_fix Sample.flight_january)) in
        (day utc, month utc, year utc) = (5, 1, 2024)).
Proof. eexists. split; [vm_compute; reflexivity|]. repeat split; reflexivity. Qed.

(** The resolver reads the coordinate of a location, not its address. *)
Lemma peak_of_node_address env loc address node :
  peak_of_node env {| raw_lat := raw_lat loc; raw_lon := raw_lon loc;
                      raw_address := address |} node
  = peak_of_node env loc node.
Proof. reflexivity. Qed.

Lemma collect_peaks_address env loc address nodes :
  ∀ acc,
    collect_peaks env {| raw_lat := raw_lat loc; raw_lon := raw_lon loc;
                         raw_address := address |} nodes acc
    = collect_peaks env loc nodes acc.
Proof.
  induction nodes as [|node nodes IH]; intros acc; [done|].
  simpl collect_peaks. rewrite peak_of_node_address.
  destruct (peak_of_node env loc node); simpl; [apply IH | done].
Qed.

Lemma resolver_ignores_address env location address radius :
  find_closest_peak_to_location env (with_address address location) radius
  = find_closest_peak_to_location env location radius.
Proof.
  destruct location as [loc|]; [|done].
  unfold find_closest_peak_to_location, find_closest_peak_body. simpl.
  destruct (overpass_query env radius (raw_lat loc) (raw_lon loc)); [|done].
  simpl. by rewrite collect_peaks_address.
Qed.

(** C7, as the code has it: the take-off label of a record is the answer
    of the resolver of the nearest peak for the location the reverse
    geocoder returned for the take-off fix; the query is centred on the
    coordinate of that location, and the address of the location has no
    part in it. *)
Theorem takeoff_label_from_geocoded_location env igc_path flight t r :
  create_from_file env igc_path = Ok flight →
  parse_flight_details env igc_path = (t, Ok (Some r)) →
  ∃ location_takeoff,
    reverse env (lat_lon env (takeoff_fix flight)) = Ok location_takeoff ∧
    ∀ address,
      find_closest_peak_to_location env (with_address address location_takeoff) 2000
      = Ok (Takeoff_Location r).
Proof.
  intros Hf H. apply parse_flight_details_record in H.
  destruct H as (flight' & Hf' & _ & Hs).
  rewrite Hf in Hf'. injection Hf' as <-.
  apply flight_stats_inv in Hs.
  destruct Hs as (lt & _ & _ & _ & _ & label & Hlt & _ & _ & _ & _ & Hlabel & -> & _).
  exists lt. split; [done|]. intros address.
  by rewrite resolver_ignores_address.
Qed.

Lemma takeoff_label_from_geocoded_location_witness :
  ∃ r, record_of Sample.env_town Sample.a_igc = Some r ∧
  ∃ location_takeoff,
    reverse Sample.env_town (lat_lon Sample.env_town (takeoff_fix Sample.flight_june))
    = Ok location_takeoff ∧
    ∀ address,
      find_closest_peak_to_location Sample.env_town
        (with_address address location_takeoff) 2000
      = Ok (Takeoff_Location r).
Proof.
  eexists. split; [vm_compute; reflexivity|].
  exact (takeoff_label_from_geocoded_location Sample.env_town Sample.a_igc
           Sample.flight_june [] _ eq_refl eq_refl).
Defined.

(** C7, as the claim has it, fails: around the take-off fix the service
    knows the Glungezer, around the place the geocoder answers with it
    knows Serles and Nockspitze; the record names Serles. *)
Lemma takeoff_label_not_from_fix :
  ∃ r, record_of Sample.env_town Sample.a_igc = Some r ∧
       find_closest_peak_to_location Sample.env_town
         (Some (location_of_fix Sample.env_town (takeoff_fix Sample.flight_june)))
         2000 = Ok "Glungezer" ∧
       Takeoff_Location r = "Serles".
Proof. eexists. split; [vm_compute; reflexivity|]. split; reflexivity. Qed.

(** ** The label of the landing place *)

(** C8, as the code has it: the city when the address has one that is
    not the empty text, also beside a village; the village when the city
    is missing or empty; the empty text when there is no village
    either. *)
Theorem landing_label_precedence (address : gmap string string) :
  (∀ c, address !! "city" = Some c → c ≠ "" →
        location_landing_str address = c) ∧
  (∀ v, address !! "city" = None ∨ address !! "city" = Some "" →
        address !! "village" = Some v →
        location_landing_str address = v) ∧
  (address !! "city" = None ∨ address !! "city" = Some "" →
   address !! "village" = None →
   location_landing_str address = "").
Proof.
  unfold location_landing_str, truthy. repeat split.
  - intros c -> Hc. simpl. apply String.eqb_neq in Hc. by rewrite Hc.
  - by intros v [-> | ->] ->.
  - by intros [-> | ->] ->.
Qed.

Lemma landing_label_precedence_witness :
  location_landing_str {[ "city" := "Innsbruck"; "village" := "Igls" ]} = "Innsbruck" ∧
  location_landing_str {[ "village" := "Igls" ]} = "Igls" ∧
  location_landing_str ∅ = "".
Proof.
  split; [|split].
  - apply (proj1 (landing_label_precedence _) "Innsbruck");
      [reflexivity | discriminate].
  - apply (proj1 (proj2 (landing_label_precedence _)) "Igls");
      [left; reflexivity | reflexivity].
  - apply (proj2 (proj2 (landing_label_precedence _)));
      [left; reflexivity | reflexivity].
Defined.

(** C8, as the claim has it, fails: the address has a city field, which
    is the empty text, and a village; the label is the village, not the
    value of the city field. *)
Lemma empty_city_yields_village :
  let address : gmap string string := {[ "city" := ""; "village" := "Igls" ]} in
  address !! "city" = Some "" ∧
  location_landing_str address = "Igls" ∧
  location_landing_str address ≠ "".
Proof.
  cbv zeta. split; [reflexivity|]. split; [reflexivity|].
  intros H. vm_compute in H. discriminate.
Qed.

(** ** The thermal gain *)

Lemma thermal_loop_gain_from ths :
  ∀ acc, fst (fold_left thermal_step ths acc)
         = fst acc + sum_rounded (map alt_change ths).
Proof.
  induction ths as [|th ths IH]; intros acc; simpl.
  - lia.
  - rewrite IH. simpl. lia.
Qed.

Lemma thermal_loop_gain ths :
  fst (thermal_loop ths) = sum_rounded (map alt_change ths).
Proof. unfold thermal_loop. by rewrite thermal_loop_gain_from. Qed.

(** C10: the thermal gain of a record is the sum of the gains of the
    thermals, each rounded to the nearest integer on its own; there are
    gains for which this is not the rounding of their sum. *)
Theorem thermal_gain_sum_of_rounded env igc_path flight t r :
  create_from_file env igc_path = Ok flight →
  parse_flight_details env igc_path = (t, Ok (Some r)) →
  Thermal_gain_m r = sum_rounded (map alt_change (thermals flight)) ∧
  ∃ gains, sum_rounded gains ≠ round_of_sum gains.
Proof.
  intros Hf H. split.
  - apply parse_flight_details_record in H.
    destruct H as (flight' & Hf' & _ & Hs).
    rewrite Hf in Hf'. injection Hf' as <-.
    apply flight_stats_inv in Hs.
    destruct Hs as (_ & _ & _ & _ & _ & _ & _ & _ & _ & _ & _ & _
                    & _ & _ & _ & _ & _ & ->).
    apply thermal_loop_gain.
  - exists [1306 # 10; 2006 # 10]%Q. discriminate.
Qed.

Lemma thermal_gain_sum_of_rounded_witness :
  ∃ r, record_of Sample.env Sample.a_igc = Some r ∧
       Thermal_gain_m r
       = sum_rounded (map alt_change (thermals Sample.flight_june)) ∧
       ∃ gains, sum_rounded gains ≠ round_of_sum gains.
Proof.
  eexists. split; [vm_compute; reflexivity|].
  exact (thermal_gain_sum_of_rounded Sample.env Sample.a_igc
           Sample.flight_june [] _ eq_refl eq_refl).
Defined.

(** In the sample flight the gains of 130.6 m and 200.6 m count 131 m
    and 201 m, while their sum of 331.2 m rounds to 331 m. *)
Example gain_of_sample :
  sum_rounded (map alt_change (thermals Sample.flight_june)) = 332 ∧
  round_of_sum (map alt_change (thermals Sample.flight_june)) = 331.
Proof. split; reflexivity. Qed.

(** ** Checks of the building blocks *)

Example float_plain : float_ascii "2962" = Ok (FNum (2962 # 1)).
Proof. reflexivity. Qed.
Example float_fraction : float_ascii " 1234.5 " = Ok (FNum (2469 # 2)).
Proof. reflexivity. Qed.
Example float_exponent : float_ascii "-1_2.5e-1" = Ok (FNum (- (5 # 4))).
Proof. reflexivity. Qed.
Example float_tenth :
  float_ascii "0.1" = Ok (FNum (3602879701896397 # 36028797018963968)).
Proof. reflexivity. Qed.
Example float_beyond_53_bits :
  float_ascii "9007199254740993" = Ok (FNum (9007199254740992 # 1)).
Proof. reflexivity. Qed.
Example float_overflow : float_ascii "-1e400" = Ok (FInf true).
Proof. reflexivity. Qed.
Example float_form_feed :
  float_ascii (String (ascii_of_nat 12) "2000 ") = Ok (FNum (2000 # 1)).
Proof. reflexivity. Qed.
Example float_file_separator :
  is_ok (float_ascii (String (ascii_of_nat 28) "2000")) = false.
Proof. reflexivity. Qed.
Example float_feet : is_ok (float_ascii "2000 ft") = false.
Proof. reflexivity. Qed.
Example float_two_points : is_ok (float_ascii "1.234.5") = false.
Proof. reflexivity. Qed.
Example repr_plain : repr_ascii "2000 ft" = "'2000 ft'".
Proof. reflexivity. Qed.
Example repr_apostrophe :
  repr_ascii "Error: can't parse"
  = String double_quote ("Error: can't parse" +:+ String double_quote "").
Proof. reflexivity. Qed.
Example repr_line_feed :
  repr_ascii (String (ascii_of_nat 10) "a")
  = String single_quote (String backslash "na'").
Proof. reflexivity. Qed.
Example replace_all : replace " Meter" "" "12 Meter Meter34" = "1234".
Proof. reflexivity. Qed.
Example elevation_with_unit :
  float_ascii (replace " Meter" "" (translate tr "2,5 Meter")) = Ok (FNum (5 # 2)).
Proof. reflexivity. Qed.
Example epoch_day : civil_from_days 0 = (1970, 1, 1).
Proof. reflexivity. Qed.
Example leap_day : civil_from_days 19782 = (2024, 2, 29).
Proof. reflexivity. Qed.
Example leap_day_back : days_from_civil 2024 2 29 = 19782.
Proof. reflexivity. Qed.
Example noon : strftime_HM (utcfromtimestamp 1717243500) = "12:05".
Proof. reflexivity. Qed.
Example round_halves : (py_round (1 # 2), py_round (3 # 2), py_round (5 # 2)) = (0, 2, 2).
Proof. reflexivity. Qed.
Example round_negative : py_round (- (7 # 4)) = -2.
Proof. reflexivity. Qed.
Example int_truncates : (py_int (19 # 10), py_int (- (19 # 10))) = (1, -1).
Proof. reflexivity. Qed.

(** * Further properties of the run *)

Lemma writes_app t1 t2 : writes (t1 ++ t2) = writes t1 ++ writes t2.
Proof. unfold writes. apply omap_app. Qed.

Lemma writes_of_extraction env igc_path :
  writes (fst (parse_flight_details env igc_path)) = [].
Proof.
  by destruct (parse_flight_details_cases env igc_path)
    as [[e ->]|[[r ->]|[l ->]]].
Qed.

Lemma writes_turn line t path df t' :
  writes (Stdout line :: t ++ ToCsv path df :: t')
  = writes t ++ (path, df) :: writes t'.
Proof.
  change (Stdout line :: t ++ ToCsv path df :: t')
    with ([Stdout line] ++ t ++ [ToCsv path df] ++ t').
  by rewrite !writes_app.
Qed.

Lemma record_of_ok env igc_path t o :
  parse_flight_details env igc_path = (t, Ok o) → record_of env igc_path = o.
Proof. intros H. unfold record_of. rewrite H. by destruct o. Qed.

(** The writes of the loop, one by one: the [k]-th is the table of the
    records of the first [k] files; the loop returns after as many writes
    as there are files, and raises after fewer. *)
Lemma process_files_writes_list env out total files :
  ∀ i ds,
    ∃ m, (m ≤ length files)%nat ∧
      writes (fst (process_files env out total i files ds))
      = map (λ k, (out, table (ds ++ extracted env (take k files)))) (seq 1 m) ∧
      match snd (process_files env out total i files ds) with
      | Ok ds' => m = length files ∧ ds' = ds ++ extracted env files
      | Raise _ => (m < length files)%nat
      end.
Proof.
  induction files as [|p rest IH]; intros i ds.
  { exists 0%nat. simpl. by rewrite app_nil_r. }
  pose proof (writes_of_extraction env p) as Hw.
  destruct (parse_flight_details env p) as [t [o|e]] eqn:Hp; simpl in Hw.
  - pose proof (process_files_step env out total i p rest ds t o Hp) as Hstep.
    cbv zeta in Hstep. pose proof (record_of_ok env p t o Hp) as Hrec.
    destruct (match o with Some d => ds ++ [d] | None => ds end)
      as [|d l] eqn:Hds.
    + rewrite Hstep. exists 0%nat. simpl. rewrite Hw. split; [lia|]. split; [done | lia].
    + destruct (csv_write env out _) as [[]|ew] in Hstep; cycle 1.
      { rewrite Hstep. exists 0%nat. simpl. rewrite Hw.
        split; [lia|]. split; [done | lia]. }
      destruct (IH (S i) (d :: l)) as (m & Hm & Hws & Hres).
      destruct (process_files env out total (S i) rest (d :: l)) as [t' r] eqn:Hrest.
      rewrite Hstep. simpl in Hws, Hres. exists (S m).
      split; [simpl; lia|]. split.
      * cbn [fst]. rewrite writes_turn, Hw, Hws. cbn [app seq map]. fold (table (d :: l)).
        assert (Hk : ∀ k, ds ++ extracted env (take (S k) (p :: rest))
                          = (d :: l) ++ extracted env (take k rest)).
        { intros k. change (take (S k) (p :: rest)) with (p :: take k rest).
          rewrite extracted_cons, Hrec, <- Hds.
          destruct o; [by rewrite <- app_assoc | done]. }
        f_equal.
        { rewrite (Hk 0%nat), take_0. by rewrite app_nil_r. }
        rewrite <- (seq_shift m 1), map_map. apply map_ext. intros k. by rewrite Hk.
      * cbn [snd]. destruct r as [ds'|e].
        -- destruct Hres as [-> ->]. split; [done|].
           change (d :: l ++ extracted env rest)
             with ((d :: l) ++ extracted env rest).
           rewrite extracted_cons, Hrec, <- Hds.
           destruct o; [by rewrite <- app_assoc | done].
        -- simpl. lia.
  - rewrite (process_files_raise env out total i p rest ds t e Hp).
    exists 0%nat. simpl. rewrite Hw. split; [lia|]. split; [done | lia].
Qed.

Lemma writes_between a t b : writes (Stdout a :: t ++ [Stdout b]) = writes t.
Proof.
  change (Stdout a :: t ++ [Stdout b]) with ([Stdout a] ++ t ++ [Stdout b]).
  rewrite !writes_app. simpl. by rewrite app_nil_r.
Qed.

Lemma writes_after a t : writes (Stdout a :: t) = writes t.
Proof. reflexivity. Qed.

(** A whole run with both folders given and at least one file found: the
    loop between ["Starting."] and, if the loop returns, ["Done."]. *)
Lemma parse_flights_run env igc_folder output_folder output_filename p files :
  igc_folder ≠ "" →
  output_folder ≠ "" →
  rglob env igc_folder igc_pattern = p :: files →
  parse_flights env igc_folder output_folder output_filename =
  let '(t, r) := process_files env [output_folder; output_filename]
                   (length (p :: files)) 0 (p :: files) [] in
  match r with
  | Ok _ => (Stdout "Starting." :: t ++ [Stdout "Done."], Ok tt)
  | Raise e => (Stdout "Starting." :: t, Raise e)
  end.
Proof.
  intros Hin Hout Hfiles. unfold parse_flights.
  apply String.eqb_neq in Hin, Hout. rewrite Hin, Hout, Hfiles.
  cbv zeta. unfold bind, print.
  by destruct (process_files _ _ _ _ _ _) as [t [ds|e]].
Qed.

(** A run that lacks a folder or finds no file prints one line and
    returns. *)
Lemma parse_flights_halts env igc_folder output_folder output_filename :
  igc_folder = "" ∨ output_folder = "" ∨ rglob env igc_folder igc_pattern = [] →
  ∃ line, parse_flights env igc_folder output_folder output_filename
          = ([Stdout line], Ok tt) ∨
          parse_flights env igc_folder output_folder output_filename
          = ([Stdout "Starting."; Stdout line], Ok tt).
Proof.
  unfold parse_flights. intros H.
  destruct (String.eqb igc_folder "") eqn:Hin; [eauto|].
  destruct (String.eqb output_folder "") eqn:Hout; [eauto|].
  apply String.eqb_neq in Hin, Hout.
  destruct H as [H|[H|H]]; [done | done |]. rewrite H. simpl. eauto.
Qed.

Lemma run_writes_shape env igc_folder output_folder output_filename :
  ∃ m, writes (fst (parse_flights env igc_folder output_folder output_filename))
       = map (λ k, ([output_folder; output_filename],
                    table (extracted env
                             (take k (rglob env igc_folder igc_pattern)))))
             (seq 1 m).
Proof.
  destruct (decide (igc_folder = "")) as [Hin|Hin];
    [|destruct (decide (output_folder = "")) as [Hout|Hout]];
    [| |destruct (rglob env igc_folder igc_pattern) as [|p files] eqn:Hfiles].
  1-3: destruct (parse_flights_halts env igc_folder output_folder output_filename)
      as [line [Hr | Hr]]; [tauto| |]; rewrite Hr; by exists 0%nat.
  rewrite (parse_flights_run _ _ _ _ p files Hin Hout Hfiles).
  destruct (process_files_writes_list env [output_folder; output_filename]
              (length (p :: files)) (p :: files) 0%nat [])
    as (m & _ & Hws & _).
  exists m. destruct (process_files _ _ _ _ _ _) as [t [ds|e]];
    cbn [fst] in Hws |- *; by rewrite ?writes_between, ?writes_after.
Qed.

(** X1: the tables a run writes, all to the output file, are, in order,
    the tables of the records of the first file, of the first two files,
    and so on; a run that returns with both folders given has written
    one table per file. *)
Theorem run_writes_after_each_file env igc_folder output_folder output_filename :
  let files := rglob env igc_folder igc_pattern in
  let run := parse_flights env igc_folder output_folder output_filename in
  ∃ m, (m ≤ length files)%nat ∧
    writes (fst run)
    = map (λ k, ([output_folder; output_filename],
                 table (extracted env (take k files)))) (seq 1 m) ∧
    (igc_folder ≠ "" ∧ output_folder ≠ "" ∧ snd run = Ok tt → m = length files).
Proof.
  cbv zeta.
  destruct (decide (igc_folder = "")) as [Hin|Hin];
    [|destruct (decide (output_folder = "")) as [Hout|Hout]];
    [| |destruct (rglob env igc_folder igc_pattern) as [|p files] eqn:Hfiles].
  - destruct (parse_flights_halts env igc_folder output_folder output_filename)
      as [line [-> | ->]]; [by left|..]; exists 0%nat; simpl; intuition lia.
  - destruct (parse_flights_halts env igc_folder output_folder output_filename)
      as [line [-> | ->]]; [by right; left|..]; exists 0%nat; simpl; intuition lia.
  - destruct (parse_flights_halts env igc_folder output_folder output_filename)
      as [line [-> | ->]]; [by right; right|..]; exists 0%nat; simpl; intuition lia.
  - rewrite (parse_flights_run _ _ _ _ p files Hin Hout Hfiles).
    destruct (process_files_writes_list env [output_folder; output_filename]
                (length (p :: files)) (p :: files) 0%nat [])
      as (m & Hm & Hws & Hres).
    destruct (process_files _ _ _ _ _ _) as [t [ds|e]]; cbn [fst snd] in Hws, Hres |- *.
    + destruct Hres as [-> _]. exists (length (p :: files)).
      split; [done|]. split; [|done]. by rewrite writes_between.
    + exists m. split; [done|]. split; [by rewrite writes_after|]. by intros (_ & _ & ?).
Qed.

(** No row is written without its file: the loop writes only tables that
    have a row. *)
Lemma process_files_writes_nonempty env out total files :
  ∀ i ds path df,
    (path, df) ∈ writes (fst (process_files env out total i files ds)) →
    rows df ≠ [].
Proof.
  induction files as [|p rest IH]; intros i ds path df Hin.
  { by apply elem_of_nil in Hin. }
  pose proof (writes_of_extraction env p) as Hw.
  destruct (parse_flight_details env p) as [t [o|e]] eqn:Hp; simpl in Hw.
  - pose proof (process_files_step env out total i p rest ds t o Hp) as Hstep.
    cbv zeta in Hstep.
    destruct (match o with Some d => ds ++ [d] | None => ds end) as [|d l].
    + rewrite Hstep in Hin. simpl in Hin. rewrite Hw in Hin.
      by apply elem_of_nil in Hin.
    + destruct (csv_write env out _) as [[]|ew] in Hstep; cycle 1.
      { rewrite Hstep in Hin. simpl in Hin. rewrite Hw in Hin.
        by apply elem_of_nil in Hin. }
      specialize (IH (S i) (d :: l) path df).
      destruct (process_files env out total (S i) rest (d :: l)) as [t' r].
      rewrite Hstep in Hin. cbn [fst] in Hin.
      rewrite writes_turn, Hw in Hin. simpl in Hin.
      apply elem_of_cons in Hin. destruct Hin as [[= -> ->]|Hin]; [|by apply IH].
      intros Hnil. cbn [rows] in Hnil.
      pose proof (stable_sort_perm date_leb (d :: l)) as Hperm.
      change (stable_sort date_leb (d :: l))
        with (insert_sorted date_leb d (stable_sort date_leb l)) in Hperm.
      rewrite Hnil in Hperm. by apply Permutation_nil_cons in Hperm.
  - rewrite (process_files_raise env out total i p rest ds t e Hp) in Hin.
    simpl in Hin. rewrite Hw in Hin. by apply elem_of_nil in Hin.
Qed.

Lemma writes_of_run env igc_folder output_folder output_filename path df :
  (path, df) ∈ writes (fst (parse_flights env igc_folder output_folder output_filename)) →
  let files := rglob env igc_folder igc_pattern in
  (path, df) ∈ writes (fst (process_files env [output_folder; output_filename]
                              (length files) 0 files [])).
Proof.
  intros H. cbv zeta.
  destruct (decide (igc_folder = "")) as [Hin|Hin];
    [|destruct (decide (output_folder = "")) as [Hout|Hout]];
    [| |destruct (rglob env igc_folder igc_pattern) as [|p files] eqn:Hfiles].
  1-3: destruct (parse_flights_halts env igc_folder output_folder output_filename)
      as [line [Hr | Hr]]; [tauto| |]; rewrite Hr in H; simpl in H;
      by apply elem_of_nil in H.
  rewrite (parse_flights_run _ _ _ _ p files Hin Hout Hfiles) in H.
  destruct (process_files _ _ _ _ _ _) as [t [ds|e]]; cbn [fst] in H |- *.
  - by rewrite writes_between in H.
  - by rewrite writes_after in H.
Qed.

Lemma extracted_length env files : (length (extracted env files) ≤ length files)%nat.
Proof.
  induction files as [|p files IH]; [done|].
  rewrite extracted_cons. destruct (record_of env p); simpl; lia.
Qed.

Lemma extracted_app env l1 l2 :
  extracted env (l1 ++ l2) = extracted env l1 ++ extracted env l2.
Proof. apply omap_app. Qed.

Lemma table_rows_length ds : length (rows (table ds)) = length ds.
Proof. simpl. apply Permutation_length, stable_sort_perm. Qed.

(** X2: the [k]-th table a run writes (counting from one) has at least
    one row and at most [k]; from one table to the next no row is lost
    and at most one is gained. *)
Theorem tables_grow_by_one_row env igc_folder output_folder output_filename :
  let ws := writes (fst (parse_flights env igc_folder output_folder output_filename)) in
  (∀ k path df, ws !! k = Some (path, df) →
     (1 ≤ length (rows df) ≤ S k)%nat) ∧
  (∀ k path1 df1 path2 df2,
     ws !! k = Some (path1, df1) → ws !! S k = Some (path2, df2) →
     (length (rows df1) ≤ length (rows df2) ≤ S (length (rows df1)))%nat).
Proof.
  cbv zeta.
  destruct (run_writes_shape env igc_folder output_folder output_filename)
    as (m & Hws).
  set (files := rglob env igc_folder igc_pattern) in *.
  assert (Hlook : ∀ k path df,
            writes (fst (parse_flights env igc_folder output_folder output_filename))
              !! k = Some (path, df) →
            df = table (extracted env (take (S k) files))).
  { intros k path df Hk. rewrite Hws, list_lookup_fmap in Hk.
    destruct (seq 1 m !! k) as [j|] eqn:Hj; [|done].
    apply lookup_seq in Hj as [-> _]. by injection Hk as _ <-. }
  split.
  - intros k path df Hk. pose proof (Hlook _ _ _ Hk) as ->. split.
    + assert (Hne : rows (table (extracted env (take (S k) files))) ≠ []).
      { eapply process_files_writes_nonempty.
        apply writes_of_run. by eapply list_elem_of_lookup_2. }
      destruct (rows _); [done | simpl; lia].
    + rewrite table_rows_length.
      etransitivity; [apply extracted_length|]. rewrite length_take. lia.
  - intros k path1 df1 path2 df2 H1 H2.
    pose proof (Hlook _ _ _ H1) as ->. pose proof (Hlook _ _ _ H2) as ->.
    rewrite !table_rows_length.
    rewrite <- (take_drop (S k) (take (S (S k)) files)).
    rewrite take_take, Nat.min_l by lia. rewrite extracted_app, length_app.
    pose proof (extracted_length env (drop (S k) (take (S (S k)) files))) as Hd.
    rewrite length_drop, length_take in Hd. lia.
Qed.

(** The fields of a record that are copied from the flight and the
    path. *)
Lemma flight_stats_copied env igc_path flight r :
  flight_stats env igc_path flight = Ok r →
  IGC_File r = name igc_path ∧
  Glider r = glider_type flight ∧
  Takeoff_lat_lon r = lat_lon env (takeoff_fix flight) ∧
  Landing_lat_lon r = lat_lon env (landing_fix flight) ∧
  GPS_Altitude_Takeoff_m r = gnss_alt (takeoff_fix flight) ∧
  GPS_Altitude_Landing_m r = gnss_alt (landing_fix flight) ∧
  Number_of_thermals r = Z.of_nat (length (thermals flight)).
Proof.
  unfold flight_stats.
  destruct (reverse env (lat_lon env (takeoff_fix flight))) as [lt|]; [|done].
  destruct (fromtimestamp env (timestamp (takeoff_fix flight))) as [dt|]; [|done].
  destruct (reverse env (lat_lon env (landing_fix flight))) as [ll|]; [|done].
  destruct (fromtimestamp env (timestamp (landing_fix flight))) as [dl|]; [|done].
  simpl. destruct (raw_address_of ll) as [address|]; [|done]. simpl.
  destruct (thermal_loop (thermals flight)) as [gain velocities].
  destruct (find_closest_peak_to_location env lt 2000) as [label|]; [|done].
  simpl. by intros [= <-].
Qed.

Lemma record_of_some env igc_path r :
  record_of env igc_path = Some r →
  ∃ flight, create_from_file env igc_path = Ok flight ∧ valid flight = true ∧
            flight_stats env igc_path flight = Ok r.
Proof.
  unfold record_of. intros H.
  destruct (parse_flight_details env igc_path) as [t [[r'|]|e]] eqn:Hp; try done.
  injection H as ->. by apply parse_flight_details_record in Hp.
Qed.

(** X3: every row of every table a run writes is the record of a file of
    the enumeration that the parser found valid, and names that file; a
    file found invalid has no row. *)
Theorem written_rows_are_valid_flights env igc_folder output_folder
    output_filename path df r :
  (path, df) ∈ writes (fst (parse_flights env igc_folder output_folder output_filename)) →
  r ∈ rows df →
  ∃ igc_path flight,
    igc_path ∈ rglob env igc_folder igc_pattern ∧
    create_from_file env igc_path = Ok flight ∧
    valid flight = true ∧
    flight_stats env igc_path flight = Ok r ∧
    IGC_File r = name igc_path.
Proof.
  intros Hw Hr.
  destruct (run_writes_shape env igc_folder output_folder output_filename)
    as (m & Hws).
  rewrite Hws in Hw. apply list_elem_of_fmap in Hw as (k & [= -> ->] & _).
  cbn [rows table] in Hr. rewrite stable_sort_perm in Hr.
  apply list_elem_of_omap in Hr as (p & Hp & Hrec).
  apply record_of_some in Hrec as (flight & Hf & Hv & Hs).
  exists p, flight. split; [|split; [done|split; [done|split; [done|]]]].
  - by apply (subseteq_take k (rglob env igc_folder igc_pattern)).
  - by apply flight_stats_copied in Hs as [? _].
Qed.

(** The loop over a list in two parts: the second part goes on from the
    records the first part returns, if it returns. *)
Lemma process_files_app env out total pre post :
  ∀ i ds,
    process_files env out total i (pre ++ post) ds =
    match process_files env out total i pre ds with
    | (t, Ok ds') =>
        let '(t', r) := process_files env out total (i + length pre) post ds' in
        (t ++ t', r)
    | (t, Raise e) => (t, Raise e)
    end.
Proof.
  induction pre as [|p pre IH]; intros i ds.
  { simpl. rewrite Nat.add_0_r.
    by destruct (process_files env out total i post ds). }
  rewrite <- app_comm_cons.
  destruct (parse_flight_details env p) as [t [o|e]] eqn:Hp.
  - rewrite !(process_files_step _ _ _ _ _ _ _ _ _ Hp). cbv zeta.
    destruct (match o with Some d => ds ++ [d] | None => ds end) as [|d l];
      [done|].
    destruct (csv_write env out _) as [[]|ew]; [|done].
    rewrite IH. simpl length. rewrite Nat.add_succ_r.
    destruct (process_files env out total (S i) pre (d :: l)) as [t1 [ds1|e1]];
      [|done].
    change (S i + length pre)%nat with (S (i + length pre)).
    destruct (process_files env out total (S (i + length pre)) post ds1)
      as [t2 r2].
    simpl. by rewrite <- app_assoc.
  - by rewrite !(process_files_raise _ _ _ _ _ _ _ _ _ Hp).
Qed.

(** When the loop returns. *)
Lemma extracted_turn env p rest ds t o k :
  parse_flight_details env p = (t, Ok o) →
  ds ++ extracted env (take (S k) (p :: rest))
  = match o with Some d => ds ++ [d] | None => ds end
    ++ extracted env (take k rest).
Proof.
  intros Hp. change (take (S k) (p :: rest)) with (p :: take k rest).
  rewrite extracted_cons, (record_of_ok env p t o Hp).
  destruct o; [by rewrite <- app_assoc | done].
Qed.

Lemma process_files_returns env out total files :
  ∀ i ds,
    is_ok (snd (process_files env out total i files ds)) = true ↔
    Forall (extraction_returns env) files ∧
    (ds ≠ [] ∨ ∀ p, head files = Some p → is_Some (record_of env p)) ∧
    writes_succeed env out ds files.
Proof.
  induction files as [|p rest IH]; intros i ds.
  { simpl. split; [|done]. intros _. split; [constructor|].
    split; [by right|]. intros k Hk. simpl in Hk. lia. }
  destruct (parse_flight_details env p) as [t [o|e]] eqn:Hp.
  - pose proof (process_files_step env out total i p rest ds t o Hp) as Hstep.
    cbv zeta in Hstep. pose proof (record_of_ok env p t o Hp) as Hrec.
    pose proof (extracted_turn env p rest ds t o) as Hk.
    assert (Hret : extraction_returns env p).
    { unfold extraction_returns. by rewrite Hp. }
    destruct (match o with Some d => ds ++ [d] | None => ds end)
      as [|d l] eqn:Hds.
    + rewrite Hstep. simpl. split; [done|]. intros [_ [[Hne|Hhead] _]].
      * destruct o; [|by subst ds].
        destruct ds; simpl in Hds; discriminate Hds.
      * destruct (Hhead p eq_refl) as [r Hr]. rewrite Hrec in Hr.
        rewrite Hr in Hds. destruct ds; simpl in Hds; discriminate Hds.
    + change {| columns := record_keys; rows := stable_sort date_leb (d :: l) |}
        with (table (d :: l)) in Hstep.
      destruct (csv_write env out (table (d :: l))) as [[]|ew] eqn:Hw.
      * specialize (IH (S i) (d :: l)).
        destruct (process_files env out total (S i) rest (d :: l)) as [t' r].
        rewrite Hstep. cbn [snd] in IH |- *. rewrite IH. split.
        -- intros (Hall & _ & Hws). split; [by constructor|]. split.
           ++ destruct ds as [|d0 ds]; [|by left]. right.
              simpl. intros p' [= <-]. rewrite Hrec. destruct o; [eauto | done].
           ++ intros [|[|k]] Hlen; [lia| |].
              ** rewrite (Hk 0%nat Hp), take_0. simpl extracted.
                 by rewrite app_nil_r.
              ** rewrite (Hk (S k) Hp). apply Hws. simpl in Hlen. lia.
        -- intros (Hall & _ & Hws). apply Forall_cons in Hall as [_ Hall].
           split; [done|]. split; [by left|]. intros k Hlen.
           rewrite <- (Hk k Hp). apply Hws. simpl. lia.
      * rewrite Hstep. simpl. split; [done|]. intros (_ & _ & Hws).
        specialize (Hws 1%nat). rewrite (Hk 0%nat Hp), take_0 in Hws.
        simpl extracted in Hws. rewrite app_nil_r, Hw in Hws.
        assert (Hone : (1 ≤ 1 ≤ length (p :: rest))%nat) by (simpl; lia).
        by specialize (Hws Hone).
  - rewrite (process_files_raise env out total i p rest ds t e Hp). simpl.
    split; [done|]. intros [Hall _]. apply Forall_cons in Hall as [Hret _].
    unfold extraction_returns in Hret. by rewrite Hp in Hret.
Qed.

(** X4: with both folders given, a run returns without an exception
    exactly when the extraction of every file returns, the first file
    gives a record (or there is no file at all), and every write of the
    table succeeds. *)
Theorem run_returns_iff env igc_folder output_folder output_filename :
  igc_folder ≠ "" →
  output_folder ≠ "" →
  let files := rglob env igc_folder igc_pattern in
  snd (parse_flights env igc_folder output_folder output_filename) = Ok tt ↔
  Forall (extraction_returns env) files ∧
  (∀ p, head files = Some p → is_Some (record_of env p)) ∧
  writes_succeed env [output_folder; output_filename] [] files.
Proof.
  intros Hin Hout. cbv zeta.
  destruct (rglob env igc_folder igc_pattern) as [|p files] eqn:Hfiles.
  - destruct (parse_flights_halts env igc_folder output_folder output_filename)
      as [line [-> | ->]]; [by right; right|..]; simpl;
      (split; [intros _|done]);
      (split; [constructor|split; [done|]]); intros k Hk; simpl in Hk; lia.
  - rewrite (parse_flights_run _ _ _ _ p files Hin Hout Hfiles).
    pose proof (process_files_returns env [output_folder; output_filename]
                  (length (p :: files)) (p :: files) 0%nat []) as Hret.
    destruct (process_files _ _ _ _ _ _) as [t [ds|e]]; simpl in Hret |- *.
    + split; [intros _|done]. destruct Hret as [Hret _].
      destruct (Hret eq_refl) as (Hall & [?|Hhead] & Hws); [done|]. by split.
    + split; [done|]. intros (Hall & Hhead & Hws). destruct Hret as [_ Hret].
      assert (false = true); [|done]. apply Hret.
      split; [done|]. split; [by right | done].
Qed.

Lemma run_returns_iff_witness :
  snd (parse_flights Sample.env "flights" "out" "flightbook.csv") = Ok tt ↔
  Forall (extraction_returns Sample.env) (rglob Sample.env "flights" igc_pattern) ∧
  (∀ p, head (rglob Sample.env "flights" igc_pattern) = Some p →
        is_Some (record_of Sample.env p)) ∧
  writes_succeed Sample.env ["out"; "flightbook.csv"] []
    (rglob Sample.env "flights" igc_pattern).
Proof.
  apply (run_returns_iff Sample.env "flights" "out" "flightbook.csv");
    discriminate.
Defined.

(** With an output folder that does not exist every extraction of the
    sample run would return and the first file gives a record, but the
    first write raises and the run ends there. *)
Example missing_output_folder :
  Forall (extraction_returns Cases.env_nodir)
    (rglob Cases.env_nodir "flights" igc_pattern) ∧
  is_Some (record_of Cases.env_nodir Sample.a_igc) ∧
  parse_flights Cases.env_nodir "flights" "nodir" "flightbook.csv" =
  ([Stdout "Starting."; Stdout "Processing flight 1/3 a.igc"],
   Raise Cases.no_such_folder).
Proof.
  split; [repeat constructor|]. split; [vm_compute; eauto | reflexivity].
Qed.

(** C1, as the code has it: an exception raised while the statistics of
    a file are extracted is not caught by the loop.  The run ends in an
    exception at that file, and what it printed and wrote is what the
    files up to that one caused; no later file is read.  The exception
    is that of the extraction itself whenever the loop came as far as
    that file, which it does when the extraction of every file before it
    returns, the first of them gives a record and the tables after them
    are written; otherwise the run has ended at an earlier file, in the
    exception raised there. *)
Theorem extraction_failure_ends_run env igc_folder output_folder
    output_filename pre igc_path post t e :
  igc_folder ≠ "" →
  output_folder ≠ "" →
  rglob env igc_folder igc_pattern = pre ++ igc_path :: post →
  parse_flight_details env igc_path = (t, Raise e) →
  let out := [output_folder; output_filename] in
  let total := length (pre ++ igc_path :: post) in
  parse_flights env igc_folder output_folder output_filename =
  (Stdout "Starting."
     :: fst (process_files env out total 0 (pre ++ [igc_path]) []),
   Raise (match snd (process_files env out total 0 pre []) with
          | Ok _ => e
          | Raise e0 => e0
          end))
  ∧ (Forall (extraction_returns env) pre →
     (∀ p, head pre = Some p → is_Some (record_of env p)) →
     writes_succeed env out [] pre →
     snd (parse_flights env igc_folder output_folder output_filename) = Raise e
     ∧ fst (process_files env out total 0 (pre ++ [igc_path]) [])
       = fst (process_files env out total 0 pre [])
         ++ Stdout (progress_line total (length pre) igc_path) :: t).
Proof.
  intros Hin Hout Hfiles H. cbv zeta.
  set (out := [output_folder; output_filename]).
  set (total := length (pre ++ igc_path :: post)).
  destruct (process_files_failure env out total pre 0%nat [] igc_path post t e H)
    as [Hcut He'].
  assert (Hrun : parse_flights env igc_folder output_folder output_filename =
    (Stdout "Starting."
       :: fst (process_files env out total 0 (pre ++ [igc_path]) []),
     Raise (match snd (process_files env out total 0 pre []) with
            | Ok _ => e
            | Raise e0 => e0
            end))).
  { unfold parse_flights.
    apply String.eqb_neq in Hin, Hout. rewrite Hin, Hout, Hfiles.
    fold out. fold total. rewrite Hcut. clear Hcut. clearbody out total.
    destruct (process_files env out total 0 (pre ++ [igc_path]) []) as [t' r].
    simpl in He'. subst r. by destruct pre. }
  split; [exact Hrun|]. intros Hall Hhead Hws.
  assert (Hok : is_ok (snd (process_files env out total 0 pre [])) = true).
  { apply process_files_returns. split; [done|]. split; [by right | done]. }
  rewrite Hrun. cbn [snd].
  destruct (process_files env out total 0 pre []) as [tp [ds|e0]] eqn:Hpre;
    [|done].
  split; [done|].
  pose proof (process_files_app env out total pre [igc_path] 0%nat []) as Happ.
  rewrite Hpre in Happ. rewrite Happ.
  change (0 + length pre)%nat with (length pre).
  by rewrite (process_files_raise _ _ _ _ _ _ _ _ _ H).
Qed.

Lemma extraction_failure_ends_run_witness :
  parse_flights Cases.env_gap_second "flights" "out" "flightbook.csv" =
  ([Stdout "Starting.";
    Stdout "Processing flight 1/3 c.IGC";
    ToCsv ["out"; "flightbook.csv"]
      (table (extracted Cases.env_gap_second [Sample.c_igc]));
    Stdout "Processing flight 2/3 a.igc"],
   Raise (AttributeError "'NoneType' object has no attribute 'raw'"))
  ∧ snd (parse_flights Cases.env_gap_second "flights" "out" "flightbook.csv")
    = Raise (AttributeError "'NoneType' object has no attribute 'raw'").
Proof.
  pose proof (extraction_failure_ends_run Cases.env_gap_second "flights" "out"
                "flightbook.csv" [Sample.c_igc] Sample.a_igc [Sample.b_igc] []
                (AttributeError "'NoneType' object has no attribute 'raw'")) as H.
  cbv zeta in H.
  destruct H as [Hrun Hsame];
    [discriminate | discriminate | reflexivity | reflexivity |].
  split; [rewrite Hrun; reflexivity|].
  apply Hsame.
  - repeat constructor.
  - intros p [= <-]. vm_compute. eauto.
  - intros k _. reflexivity.
Defined.

(** X5: when the first file of the enumeration is an invalid track, the
    run prints its diagnostic and ends in the [KeyError] of the sort of
    the empty table; nothing is written and no other file is read. *)
Theorem invalid_first_file_ends_run env igc_folder output_folder
    output_filename igc_path rest flight :
  igc_folder ≠ "" →
  output_folder ≠ "" →
  rglob env igc_folder igc_pattern = igc_path :: rest →
  create_from_file env igc_path = Ok flight →
  valid flight = false →
  parse_flights env igc_folder output_folder output_filename =
  ([Stdout "Starting.";
    Stdout (progress_line (S (length rest)) 0 igc_path);
    Stdout ("Flight " +:+ name igc_path +:+ " is invalid: "
            +:+ str_notes env (notes flight))],
   Raise (KeyError "Year")).
Proof.
  intros Hin Hout Hfiles Hf Hv.
  rewrite (parse_flights_run _ _ _ _ igc_path rest Hin Hout Hfiles).
  assert (Hp : parse_flight_details env igc_path =
               ([Stdout ("Flight " +:+ name igc_path +:+ " is invalid: "
                         +:+ str_notes env (notes flight))], Ok None)).
  { unfold parse_flight_details, lift, bind, print, ret. by rewrite Hf, Hv. }
  by rewrite (invalid_file_on_empty_table _ _ _ _ _ _ _ Hp).
Qed.

Lemma invalid_first_file_ends_run_witness :
  parse_flights Sample.env_invalid_first "flights" "out" "flightbook.csv" =
  ([Stdout "Starting.";
    Stdout (progress_line 2 0 Sample.b_igc);
    Stdout ("Flight " +:+ name Sample.b_igc +:+ " is invalid: "
            +:+ str_notes Sample.env_invalid_first (notes Sample.flight_invalid))],
   Raise (KeyError "Year")).
Proof.
  apply (invalid_first_file_ends_run Sample.env_invalid_first "flights" "out"
           "flightbook.csv" Sample.b_igc [Sample.a_igc] Sample.flight_invalid);
    [discriminate | discriminate | reflexivity | reflexivity | reflexivity].
Defined.

(** * Dates, times and the airtime *)

Lemma holds_from_spec test n :
  ∀ start, holds_from test n start = true →
           ∀ i, start <= i < start + Z.of_nat n → test i = true.
Proof.
  induction n as [|n IH]; intros start H i Hi; [lia|].
  simpl in H. apply andb_true_iff in H as [H0 H].
  destruct (decide (i = start)) as [->|Hne]; [done|].
  apply (IH (start + 1) H). lia.
Qed.

Lemma cycle_days_ok : holds_from cycle_day_ok (Z.to_nat 146097) 0 = true.
Proof. vm_compute. reflexivity. Qed.

Lemma cycle_day_ok_all doe : 0 <= doe < 146097 → cycle_day_ok doe = true.
Proof.
  intros H. apply (holds_from_spec _ _ _ cycle_days_ok). lia.
Qed.

(** The day number of the date of a day number is that day number, and
    the date is one of the calendar. *)
Lemma days_from_civil_from_days days :
  let '(y, m, d) := civil_from_days days in
  days_from_civil y m d = days ∧ 1 <= m <= 12 ∧ 1 <= d <= 31.
Proof.
  unfold civil_from_days. cbv zeta.
  set (z := days + 719468). set (era := z / 146097).
  set (doe := z - era * 146097).
  assert (Hdoe : 0 <= doe < 146097).
  { subst doe era. pose proof (Z.mod_pos_bound z 146097 ltac:(lia)).
    pose proof (Z.div_mod z 146097 ltac:(lia)). lia. }
  pose proof (cycle_day_ok_all doe Hdoe) as Hok.
  unfold cycle_day_ok in Hok. cbv zeta in Hok.
  set (yoe := (doe - doe / 1460 + doe / 36524 - doe / 146096) / 365) in *.
  set (doy := doe - (365 * yoe + yoe / 4 - yoe / 100)) in *.
  set (mp := (5 * doy + 2) / 153) in *.
  set (d := doy - (153 * mp + 2) / 5 + 1) in *.
  set (m := if mp <? 10 then mp + 3 else mp - 9) in *.
  rewrite !andb_true_iff, !Z.leb_le, Z.eqb_eq in Hok.
  destruct Hok as [[[[[[Hy0 Hy1] Hm0] Hm1] Hd0] Hd1] Heq].
  split; [|lia].
  unfold days_from_civil. cbv zeta.
  assert (Hy : (if m <=? 2
                then (if m <=? 2 then yoe + era * 400 + 1 else yoe + era * 400) - 1
                else (if m <=? 2 then yoe + era * 400 + 1 else yoe + era * 400))
               = yoe + era * 400).
  { destruct (m <=? 2); lia. }
  rewrite Hy.
  assert (Hera : (yoe + era * 400) / 400 = era).
  { rewrite Z.div_add by lia. rewrite Z.div_small by lia. lia. }
  rewrite Hera.
  replace (yoe + era * 400 - era * 400) with yoe by lia.
  rewrite Heq. subst doe z. lia.
Qed.

Lemma seconds_of_datetime_of_seconds s :
  seconds_of_datetime (datetime_of_seconds s) = s.
Proof.
  unfold seconds_of_datetime, datetime_of_seconds.
  pose proof (days_from_civil_from_days (s / 86400)) as H.
  destruct (civil_from_days (s / 86400)) as [[y m] d]. simpl.
  destruct H as [-> _].
  Z.to_euclidean_division_equations. lia.
Qed.

(** The fields of the reading of a count of seconds are those of a clock
    and a calendar. *)
Lemma datetime_of_seconds_ranges s :
  let dt := datetime_of_seconds s in
  1 <= month dt <= 12 ∧ 1 <= day dt <= 31 ∧
  0 <= hour dt < 24 ∧ 0 <= minute dt < 60 ∧
  days_from_civil (year dt) (month dt) (day dt) = s / 86400.
Proof.
  unfold datetime_of_seconds. cbv zeta.
  pose proof (days_from_civil_from_days (s / 86400)) as H.
  destruct (civil_from_days (s / 86400)) as [[y m] d]. simpl.
  destruct H as (-> & Hm & Hd). repeat split; try lia.
  all: Z.to_euclidean_division_equations; lia.
Qed.

Lemma fromtimestamp_ok env ts dt :
  fromtimestamp env ts = Ok dt →
  dt = datetime_of_seconds (ts + utcoffset env ts) ∧ 1 <= year dt <= 9999.
Proof.
  unfold fromtimestamp. cbv zeta.
  destruct (_ && _) eqn:Hy; [|done]. intros [= <-]. split; [done|].
  apply andb_true_iff in Hy. rewrite !Z.leb_le in Hy. lia.
Qed.

(** The times of a record, with the airtime. *)
Lemma flight_stats_times env igc_path flight r :
  flight_stats env igc_path flight = Ok r →
  let local f := datetime_of_seconds (timestamp f + utcoffset env (timestamp f)) in
  let dt_takeoff := local (takeoff_fix flight) in
  let dt_landing := local (landing_fix flight) in
  1 <= year dt_takeoff <= 9999 ∧ 1 <= year dt_landing <= 9999 ∧
  Takeoff_Time_UTC r = strftime_HM dt_takeoff ∧
  Landing_Time_UTC r = strftime_HM dt_landing ∧
  Day r = day dt_landing ∧ Month r = month dt_landing ∧ Year r = year dt_landing ∧
  Airtime_min r
  = py_round (inject_Z (total_seconds_between dt_landing dt_takeoff) / 60).
Proof.
  unfold flight_stats. cbv zeta.
  destruct (reverse env (lat_lon env (takeoff_fix flight))) as [lt|]; [|done].
  destruct (fromtimestamp env (timestamp (takeoff_fix flight))) as [dt|] eqn:Ht;
    [|done].
  destruct (reverse env (lat_lon env (landing_fix flight))) as [ll|]; [|done].
  destruct (fromtimestamp env (timestamp (landing_fix flight))) as [dl|] eqn:Hl;
    [|done].
  simpl. destruct (raw_address_of ll) as [address|]; [|done]. simpl.
  destruct (thermal_loop (thermals flight)) as [gain velocities].
  destruct (find_closest_peak_to_location env lt 2000) as [label|]; [|done].
  simpl. intros [= <-]. simpl.
  apply fromtimestamp_ok in Ht as [-> Hyt]. apply fromtimestamp_ok in Hl as [-> Hyl].
  done.
Qed.

Lemma is_some_record env igc_path t r :
  parse_flight_details env igc_path = (t, Ok (Some r)) →
  ∀ flight, create_from_file env igc_path = Ok flight →
            flight_stats env igc_path flight = Ok r.
Proof.
  intros H flight Hf. apply parse_flight_details_record in H.
  destruct H as (flight' & Hf' & _ & Hs). rewrite Hf in Hf'. by injection Hf' as <-.
Qed.

(** X6: the airtime of a record is the number of minutes, rounded to the
    nearest integer, between the local readings of the take-off and the
    landing timestamps; where the local offset from UTC is the same at
    both instants it is the rounded difference of the timestamps. *)
Theorem airtime_from_timestamps env igc_path flight t r :
  create_from_file env igc_path = Ok flight →
  parse_flight_details env igc_path = (t, Ok (Some r)) →
  let ts_takeoff := timestamp (takeoff_fix flight) in
  let ts_landing := timestamp (landing_fix flight) in
  Airtime_min r
  = py_round (inject_Z (ts_landing + utcoffset env ts_landing
                        - (ts_takeoff + utcoffset env ts_takeoff)) / 60) ∧
  (utcoffset env ts_landing = utcoffset env ts_takeoff →
   Airtime_min r = py_round (inject_Z (ts_landing - ts_takeoff) / 60)).
Proof.
  intros Hf H. cbv zeta.
  pose proof (is_some_record _ _ _ _ H flight Hf) as Hs.
  apply flight_stats_times in Hs. cbv zeta in Hs.
  destruct Hs as (_ & _ & _ & _ & _ & _ & _ & ->).
  unfold total_seconds_between. rewrite !seconds_of_datetime_of_seconds.
  split; [done|]. intros ->. do 2 f_equal. f_equal. lia.
Qed.

Lemma airtime_from_timestamps_witness :
  ∃ r, record_of Sample.env Sample.a_igc = Some r ∧
       Airtime_min r = py_round (inject_Z (1717250000 - 1717243500) / 60) ∧
       Airtime_min r = 108.
Proof.
  eexists. split; [vm_compute; reflexivity|].
  split; [|reflexivity].
  apply (airtime_from_timestamps Sample.env Sample.a_igc Sample.flight_june
           [] _ eq_refl eq_refl).
  reflexivity.
Defined.

(** X7: the date of a record is a date of the calendar in the years 1 to
    9999, namely the day on which the local reading of the landing
    timestamp falls, and both times are readings of a 24-hour clock. *)
Theorem record_date_and_times env igc_path flight t r :
  create_from_file env igc_path = Ok flight →
  parse_flight_details env igc_path = (t, Ok (Some r)) →
  let local f := timestamp f + utcoffset env (timestamp f) in
  1 <= Year r <= 9999 ∧ 1 <= Month r <= 12 ∧ 1 <= Day r <= 31 ∧
  days_from_civil (Year r) (Month r) (Day r) = local (landing_fix flight) / 86400 ∧
  (∃ h mi, 0 <= h < 24 ∧ 0 <= mi < 60 ∧
           Takeoff_Time_UTC r = two_digits h +:+ ":" +:+ two_digits mi ∧
           h * 3600 + mi * 60 <= local (takeoff_fix flight) mod 86400
                              < h * 3600 + mi * 60 + 60) ∧
  (∃ h mi, 0 <= h < 24 ∧ 0 <= mi < 60 ∧
           Landing_Time_UTC r = two_digits h +:+ ":" +:+ two_digits mi ∧
           h * 3600 + mi * 60 <= local (landing_fix flight) mod 86400
                              < h * 3600 + mi * 60 + 60).
Proof.
  intros Hf H. cbv zeta.
  pose proof (is_some_record _ _ _ _ H flight Hf) as Hs.
  apply flight_stats_times in Hs. cbv zeta in Hs.
  destruct Hs as (_ & Hy & -> & -> & -> & -> & -> & _).
  set (sl := timestamp (landing_fix flight)
             + utcoffset env (timestamp (landing_fix flight))) in *.
  set (st := timestamp (takeoff_fix flight)
             + utcoffset env (timestamp (takeoff_fix flight))) in *.
  pose proof (datetime_of_seconds_ranges sl) as Hl.
  pose proof (datetime_of_seconds_ranges st) as Ht.
  cbv zeta in Hl, Ht.
  destruct Hl as (Hm & Hd & Hh & Hmi & Hdays).
  destruct Ht as (_ & _ & Hht & Hmit & _).
  split; [done|]. split; [done|]. split; [done|]. split; [done|].
  unfold strftime_HM. split.
  - exists (hour (datetime_of_seconds st)), (minute (datetime_of_seconds st)).
    split; [done|]. split; [done|]. split; [done|].
    unfold datetime_of_seconds. destruct (civil_from_days _) as [[? ?] ?]. simpl.
    Z.to_euclidean_division_equations. lia.
  - exists (hour (datetime_of_seconds sl)), (minute (datetime_of_seconds sl)).
    split; [done|]. split; [done|]. split; [done|].
    unfold datetime_of_seconds. destruct (civil_from_days _) as [[? ?] ?]. simpl.
    Z.to_euclidean_division_equations. lia.
Qed.

Lemma written_rows_are_valid_flights_witness :
  ∃ r, r ∈ rows Sample.book ∧
  ∃ igc_path flight,
    igc_path ∈ rglob Sample.env "flights" igc_pattern ∧
    create_from_file Sample.env igc_path = Ok flight ∧
    valid flight = true ∧
    flight_stats Sample.env igc_path flight = Ok r ∧
    IGC_File r = name igc_path.
Proof.
  eexists. split; [vm_compute; apply list_elem_of_here|].
  apply (written_rows_are_valid_flights Sample.env "flights" "out"
           "flightbook.csv" ["out"; "flightbook.csv"] Sample.book).
  - vm_compute. do 2 apply list_elem_of_further. apply list_elem_of_here.
  - vm_compute. apply list_elem_of_here.
Defined.

Lemma record_date_and_times_witness :
  ∃ r, record_of Sample.env_ahead Sample.d_igc = Some r ∧
       1 <= Year r <= 9999 ∧ 1 <= Month r <= 12 ∧ 1 <= Day r <= 31 ∧
       days_from_civil (Year r) (Month r) (Day r) = (1704498600 + 39600) / 86400.
Proof.
  eexists. split; [vm_compute; reflexivity|].
  pose proof (record_date_and_times Sample.env_ahead Sample.d_igc
                Sample.flight_january [] _ eq_refl eq_refl) as H.
  cbv zeta in H. destruct H as (H1 & H2 & H3 & H4 & _).
  exact (conj H1 (conj H2 (conj H3 H4))).
Defined.

(** * Further properties of the resolver *)

Lemma peak_of_node_some env loc node p :
  peak_of_node env loc node = Ok (Some p) →
  qualifies node = true ∧ peak_from env loc node p.
Proof.
  unfold peak_of_node, qualifies, peak_from.
  destruct (tags node !! "ele") as [ele|]; [|done].
  destruct (tags node !! "name") as [nm|]; [|done].
  destruct (float _); [|done]. simpl.
  destruct (distance env _ _) as [d|]; [|done]. simpl.
  intros [= <-]. simpl. eauto 10.
Qed.

Lemma peak_of_node_none env loc node :
  peak_of_node env loc node = Ok None → qualifies node = false.
Proof.
  unfold peak_of_node, qualifies.
  destruct (tags node !! "ele") as [ele|]; [|done].
  destruct (tags node !! "name") as [nm|]; [|done].
  destruct (float _); [|done]. simpl.
  by destruct (distance env _ _).
Qed.

Lemma collect_peaks_from env loc nodes :
  ∀ acc peak_list,
    collect_peaks env loc nodes acc = Ok peak_list →
    ∃ new, peak_list = acc ++ new ∧
           Forall2 (peak_from env loc) (List.filter qualifies nodes) new.
Proof.
  induction nodes as [|node nodes IH]; intros acc peak_list H.
  { injection H as <-. exists []. by rewrite app_nil_r. }
  simpl in H. destruct (peak_of_node env loc node) as [[p|]|e] eqn:Hn;
    simpl in H; [| |done].
  - apply peak_of_node_some in Hn as [Hq Hp].
    apply IH in H as (new & -> & Hnew). exists (p :: new).
    split; [by rewrite <- app_assoc|]. simpl. rewrite Hq. by constructor.
  - apply peak_of_node_none in Hn. apply IH in H as (new & -> & Hnew).
    exists new. split; [done|]. simpl. by rewrite Hn.
Qed.

(** X8: when the loop over the answer returns, [peak_list] holds the
    nodes that carry both an elevation and a name, one entry each and in
    the order of the answer, with the name of the node, its coordinate
    and its distance from the coordinate of the location. *)
Theorem candidates_are_tagged_nodes env loc nodes peak_list :
  collect_peaks env loc nodes [] = Ok peak_list →
  Forall2 (peak_from env loc) (List.filter qualifies nodes) peak_list.
Proof.
  intros H. by apply collect_peaks_from in H as (new & -> & Hnew).
Qed.

Lemma candidates_are_tagged_nodes_witness :
  ∃ peak_list,
    collect_peaks Sample.env Sample.innsbruck
      [Sample.unnamed; Sample.serles; Sample.nockspitze] [] = Ok peak_list ∧
    Forall2 (peak_from Sample.env Sample.innsbruck)
      (List.filter qualifies [Sample.unnamed; Sample.serles; Sample.nockspitze])
      peak_list.
Proof.
  eexists. split; [vm_compute; reflexivity|].
  apply (candidates_are_tagged_nodes Sample.env Sample.innsbruck
           [Sample.unnamed; Sample.serles; Sample.nockspitze]).
  reflexivity.
Defined.

(** Cutting to whole kilometres loses less than one. *)
Lemma py_int_floor x : (0 <= x)%Q → py_int x = Qfloor x.
Proof.
  destruct x as [n d]. unfold Qle, py_int, Qfloor. simpl. intros H.
  apply Z.quot_div_nonneg; lia.
Qed.

Lemma py_int_le_within_one x y :
  (0 <= x)%Q → (0 <= y)%Q → py_int x <= py_int y → (x < y + 1)%Q.
Proof.
  intros Hx Hy. rewrite !py_int_floor by done. intros H.
  apply Qlt_le_trans with (inject_Z (Qfloor x + 1)); [apply Qlt_floor|].
  apply Qle_trans with (inject_Z (Qfloor y + 1)).
  - rewrite <- Zle_Qle. lia.
  - rewrite inject_Z_plus. apply Qplus_le_l. apply Qfloor_le.
Qed.

(** X9: with at least one candidate, all at distances that are not
    negative, the resolver returns the name of a candidate that is less
    than one kilometre farther away than any other candidate. *)
Theorem resolver_within_one_km env loc radius nodes peak_list :
  overpass_query env radius (raw_lat loc) (raw_lon loc) = Ok nodes →
  collect_peaks env loc nodes [] = Ok peak_list →
  peak_list ≠ [] →
  Forall (λ p, (0 <= peak_distance p)%Q) peak_list →
  ∃ p, p ∈ peak_list ∧
       find_closest_peak_to_location env (Some loc) radius = Ok (peak_name p) ∧
       ∀ q, q ∈ peak_list → (peak_distance p < peak_distance q + 1)%Q.
Proof.
  intros Hq Hc Hne Hpos.
  rewrite (closest_peak_rule env loc radius nodes peak_list Hq Hc).
  destruct (first_min distance_key peak_list) as [p|] eqn:Hmin.
  - apply first_min_spec in Hmin as (pre & post & -> & Hpre & Hpost).
    exists p. split; [apply elem_of_app; right; apply list_elem_of_here|].
    split; [done|]. intros q Hin.
    rewrite Forall_forall in Hpos.
    apply py_int_le_within_one.
    + apply Hpos. apply elem_of_app. right. apply list_elem_of_here.
    + by apply Hpos.
    + apply elem_of_app in Hin as [Hin|Hin].
      * rewrite Forall_forall in Hpre. specialize (Hpre q Hin).
        unfold distance_key in Hpre. lia.
      * apply elem_of_cons in Hin as [->|Hin]; [lia|].
        rewrite Forall_forall in Hpost. by apply Hpost.
  - by apply first_min_none in Hmin.
Qed.

Lemma resolver_within_one_km_witness :
  ∃ peak_list,
    collect_peaks Sample.env Sample.innsbruck
      [Sample.serles; Sample.nockspitze] [] = Ok peak_list ∧
    ∃ p, p ∈ peak_list ∧
         find_closest_peak_to_location Sample.env (Some Sample.innsbruck) 2000
         = Ok (peak_name p) ∧
         ∀ q, q ∈ peak_list → (peak_distance p < peak_distance q + 1)%Q.
Proof.
  eexists. split; [vm_compute; reflexivity|].
  apply (resolver_within_one_km Sample.env Sample.innsbruck 2000
           [Sample.serles; Sample.nockspitze]).
  - reflexivity.
  - reflexivity.
  - discriminate.
  - repeat constructor; discriminate.
Defined.




(** X10: the label the resolver returns is the fallback label or the
    name tag of a node of the answer that also carries an elevation. *)
Theorem resolver_names_a_tagged_node env location radius :
  ∃ label,
    find_closest_peak_to_location env location radius = Ok label ∧
    (label = unknown_location ∨
     ∃ loc nodes node,
       location = Some loc ∧
       overpass_query env radius (raw_lat loc) (raw_lon loc) = Ok nodes ∧
       node ∈ nodes ∧
       tags node !! "name" = Some label ∧
       is_Some (tags node !! "ele")).
Proof.
  destruct location as [loc|]; [|exists unknown_location; by split; [|left]].
  destruct (overpass_query env radius (raw_lat loc) (raw_lon loc))
    as [nodes|e] eqn:Hq.
  2: { exists unknown_location. split; [|by left].
       unfold find_closest_peak_to_location, find_closest_peak_body.
       simpl. by rewrite Hq. }
  destruct (collect_peaks env loc nodes []) as [peak_list|e] eqn:Hc.
  2: { exists unknown_location. split; [|by left].
       unfold find_closest_peak_to_location, find_closest_peak_body.
       simpl. rewrite Hq. simpl. by rewrite Hc. }
  rewrite (closest_peak_rule env loc radius nodes peak_list Hq Hc).
  destruct (first_min distance_key peak_list) as [p|] eqn:Hmin;
    [|exists unknown_location; by split; [|left]].
  exists (peak_name p). split; [done|]. right.
  apply first_min_spec in Hmin as (pre & post & -> & _ & _).
  apply collect_peaks_from in Hc as (new & Hnew & Hall). simpl in Hnew. subst new.
  assert (Hp : p ∈ pre ++ p :: post).
  { apply elem_of_app. right. apply list_elem_of_here. }
  apply list_elem_of_lookup in Hp as [i Hi].
  destruct (Forall2_lookup_r _ _ _ _ _ Hall Hi) as (node & Hnode & Hfrom).
  apply list_elem_of_lookup_2 in Hnode.
  apply list_elem_of_In, filter_In in Hnode as [Hin _].
  apply list_elem_of_In in Hin.
  destruct Hfrom as (Hname & Hele & _).
  by exists loc, nodes, node.
Qed.

(** * Further properties of the record *)

(** X11: a record is made only when the reverse geocoder found the
    landing point and its answer carries an address; the landing label is
    the place label of that address. *)
Theorem landing_label_from_geocoded_address env igc_path flight t r :
  create_from_file env igc_path = Ok flight →
  parse_flight_details env igc_path = (t, Ok (Some r)) →
  ∃ loc address,
    reverse env (lat_lon env (landing_fix flight)) = Ok (Some loc) ∧
    raw_address loc = Some address ∧
    Landing_Location r = location_landing_str address.
Proof.
  intros Hf H. pose proof (is_some_record _ _ _ _ H flight Hf) as Hs.
  apply flight_stats_inv in Hs.
  destruct Hs as (_ & _ & ll & _ & address & _ & _ & _ & Hll & _ & Ha & _ & _
                  & -> & _).
  destruct ll as [loc|]; [|done]. simpl in Ha.
  destruct (raw_address loc) as [a|] eqn:Hraw; [|done]. injection Ha as ->.
  by exists loc, address.
Qed.

Lemma landing_label_from_geocoded_address_witness :
  ∃ r, record_of Sample.env Sample.a_igc = Some r ∧
  ∃ loc address,
    reverse Sample.env (lat_lon Sample.env (landing_fix Sample.flight_june))
    = Ok (Some loc) ∧
    raw_address loc = Some address ∧
    Landing_Location r = location_landing_str address.
Proof.
  eexists. split; [vm_compute; reflexivity|].
  exact (landing_label_from_geocoded_address Sample.env Sample.a_igc
           Sample.flight_june [] _ eq_refl eq_refl).
Defined.

(** X12: when the reverse geocoder finds nothing at the take-off point
    of a valid flight, and the two times and the landing place with its
    address are read without an exception, the extraction returns a
    record, prints nothing, and the take-off label of the record is the
    fallback label. *)
Theorem takeoff_label_without_location env igc_path flight loc address :
  create_from_file env igc_path = Ok flight →
  valid flight = true →
  reverse env (lat_lon env (takeoff_fix flight)) = Ok None →
  is_ok (fromtimestamp env (timestamp (takeoff_fix flight))) = true →
  is_ok (fromtimestamp env (timestamp (landing_fix flight))) = true →
  reverse env (lat_lon env (landing_fix flight)) = Ok (Some loc) →
  raw_address loc = Some address →
  ∃ r, parse_flight_details env igc_path = ([], Ok (Some r)) ∧
       Takeoff_Location r = unknown_location ∧
       Landing_Location r = location_landing_str address.
Proof.
  intros Hf Hv Hnone Hdt Hdl Hl Hraw.
  unfold parse_flight_details, lift, bind, ret. rewrite Hf, Hv.
  unfold flight_stats. rewrite Hnone.
  destruct (fromtimestamp env (timestamp (takeoff_fix flight))) as [dtt|];
    [|done].
  rewrite Hl.
  destruct (fromtimestamp env (timestamp (landing_fix flight))) as [dtl|];
    [|done].
  simpl. rewrite Hraw. simpl.
  destruct (thermal_loop (thermals flight)) as [gain velocities].
  simpl. eexists. split; [reflexivity|]. by split.
Qed.

Lemma takeoff_label_without_location_witness :
  ∃ r, parse_flight_details Cases.env_no_takeoff Sample.a_igc
       = ([], Ok (Some r)) ∧
       Takeoff_Location r = unknown_location ∧
       Landing_Location r = "Innsbruck".
Proof.
  exact (takeoff_label_without_location Cases.env_no_takeoff Sample.a_igc
           Sample.flight_june Sample.innsbruck
           {[ "city" := "Innsbruck"; "village" := "Igls" ]}
           eq_refl eq_refl eq_refl eq_refl eq_refl eq_refl eq_refl).
Defined.

(** X13: for a valid flight whose take-off point and times are read
    without an exception, a landing point at which the reverse geocoder
    finds nothing makes the extraction raise an [AttributeError], and an
    answer without an address makes it raise the [KeyError] of
    ['address']; nothing is printed. *)
Theorem landing_lookup_failures env igc_path flight location_takeoff :
  create_from_file env igc_path = Ok flight →
  valid flight = true →
  reverse env (lat_lon env (takeoff_fix flight)) = Ok location_takeoff →
  is_ok (fromtimestamp env (timestamp (takeoff_fix flight))) = true →
  is_ok (fromtimestamp env (timestamp (landing_fix flight))) = true →
  (reverse env (lat_lon env (landing_fix flight)) = Ok None →
   parse_flight_details env igc_path
   = ([], Raise (AttributeError "'NoneType' object has no attribute 'raw'"))) ∧
  (∀ loc, reverse env (lat_lon env (landing_fix flight)) = Ok (Some loc) →
          raw_address loc = None →
          parse_flight_details env igc_path = ([], Raise (KeyError "address"))).
Proof.
  intros Hf Hv Ht Hdt Hdl. unfold parse_flight_details, lift, bind.
  rewrite Hf, Hv. unfold flight_stats. rewrite Ht.
  destruct (fromtimestamp env (timestamp (takeoff_fix flight))); [|done].
  destruct (fromtimestamp env (timestamp (landing_fix flight))); [|done].
  split.
  - intros ->. done.
  - intros loc -> Hraw. simpl. by rewrite Hraw.
Qed.

Lemma landing_lookup_failures_witness :
  parse_flight_details Sample.env_gap Sample.a_igc
  = ([], Raise (AttributeError "'NoneType' object has no attribute 'raw'")) ∧
  parse_flight_details Cases.env_no_address Sample.a_igc
  = ([], Raise (KeyError "address")).
Proof.
  split.
  - apply (proj1 (landing_lookup_failures Sample.env_gap Sample.a_igc
                    Sample.flight_june (Some Sample.innsbruck)
                    eq_refl eq_refl eq_refl eq_refl eq_refl)).
    reflexivity.
  - apply (proj2 (landing_lookup_failures Cases.env_no_address Sample.a_igc
                    Sample.flight_june (Some Cases.bare_place)
                    eq_refl eq_refl eq_refl eq_refl eq_refl) Cases.bare_place);
      reflexivity.
Defined.

Lemma thermal_loop_velocities_from ths :
  ∀ acc, snd (fold_left thermal_step ths acc)
         = snd acc ++ map vertical_velocity ths.
Proof.
  induction ths as [|th ths IH]; intros acc; simpl.
  - by rewrite app_nil_r.
  - rewrite IH. simpl. by rewrite <- app_assoc.
Qed.

Lemma thermal_loop_velocities ths :
  snd (thermal_loop ths) = map vertical_velocity ths.
Proof. unfold thermal_loop. by rewrite thermal_loop_velocities_from. Qed.

Lemma flight_stats_thermals env igc_path flight r :
  flight_stats env igc_path flight = Ok r →
  Thermal_gain_m r = fst (thermal_loop (thermals flight)) ∧
  Median_thermal_velocity_m_s r
  = match map vertical_velocity (thermals flight) with
    | [] => 0%Q
    | _ :: _ => median (map vertical_velocity (thermals flight))
    end.
Proof.
  unfold flight_stats. rewrite <- thermal_loop_velocities.
  destruct (reverse env (lat_lon env (takeoff_fix flight))) as [lt|]; [|done].
  destruct (fromtimestamp env (timestamp (takeoff_fix flight))) as [dt|]; [|done].
  destruct (reverse env (lat_lon env (landing_fix flight))) as [ll|]; [|done].
  destruct (fromtimestamp env (timestamp (landing_fix flight))) as [dl|]; [|done].
  simpl. destruct (raw_address_of ll) as [address|]; [|done]. simpl.
  destruct (thermal_loop (thermals flight)) as [gain velocities].
  destruct (find_closest_peak_to_location env lt 2000) as [label|]; [|done].
  simpl. by intros [= <-].
Qed.

(** X14: the record of a flight without thermals counts no thermal, has
    a thermal gain of 0 and a median thermal velocity of 0. *)
Theorem no_thermals_all_zero env igc_path flight t r :
  create_from_file env igc_path = Ok flight →
  parse_flight_details env igc_path = (t, Ok (Some r)) →
  thermals flight = [] →
  Number_of_thermals r = 0 ∧ Thermal_gain_m r = 0 ∧
  Median_thermal_velocity_m_s r = 0%Q.
Proof.
  intros Hf H Hnil. pose proof (is_some_record _ _ _ _ H flight Hf) as Hs.
  pose proof (flight_stats_copied _ _ _ _ Hs) as (_ & _ & _ & _ & _ & _ & ->).
  pose proof (flight_stats_thermals _ _ _ _ Hs) as [-> ->].
  by rewrite Hnil.
Qed.

Lemma no_thermals_all_zero_witness :
  ∃ r, record_of Sample.env Sample.c_igc = Some r ∧
       Number_of_thermals r = 0 ∧ Thermal_gain_m r = 0 ∧
       Median_thermal_velocity_m_s r = 0%Q.
Proof.
  eexists. split; [vm_compute; reflexivity|].
  exact (no_thermals_all_zero Sample.env Sample.c_igc Sample.flight_august
           [] _ eq_refl eq_refl eq_refl).
Defined.

(** The median of a list lies between two of its elements. *)
Lemma median_between data :
  data ≠ [] →
  ∃ a b, In a data ∧ In b data ∧ (a <= median data <= b)%Q.
Proof.
  intros Hne. unfold median.
  pose proof (stable_sort_perm Qle_bool data) as Hperm.
  set (s := stable_sort Qle_bool data) in *.
  assert (Hlen : (0 < length s)%nat).
  { rewrite Hperm. destruct data; [done | simpl; lia]. }
  assert (Hin : ∀ i, (i < length s)%nat → In (nth i s 0%Q) data).
  { intros i Hi. apply list_elem_of_In. rewrite <- Hperm.
    apply list_elem_of_In. by apply nth_In. }
  destruct (Nat.odd (length s)) eqn:Hodd.
  - exists (nth (length s / 2) s 0%Q), (nth (length s / 2) s 0%Q).
    assert (length s / 2 < length s)%nat by (apply Nat.div_lt; lia).
    split; [by apply Hin|]. split; [by apply Hin|]. split; apply Qle_refl.
  - assert (Heven : (2 ≤ length s)%nat).
    { destruct (length s) as [|[|n]]; [lia | done | lia]. }
    assert (H1 : (length s / 2 - 1 < length s)%nat).
    { pose proof (Nat.div_lt (length s) 2 ltac:(lia) ltac:(lia)). lia. }
    assert (H2 : (length s / 2 < length s)%nat) by (apply Nat.div_lt; lia).
    specialize (Hin _ H1) as Ha. specialize (Hin _ H2) as Hb.
    set (a := nth (length s / 2 - 1) s 0%Q) in *.
    set (b := nth (length s / 2) s 0%Q) in *.
    clearbody a b. unfold Qdiv.
    assert (Hhalf : (/ 2 == 1 # 2)%Q) by reflexivity.
    destruct (Qlt_le_dec b a) as [Hba|Hab].
    + exists b, a. split; [done|]. split; [done|]. split; rewrite Hhalf; lra.
    + exists a, b. split; [done|]. split; [done|]. split; rewrite Hhalf; lra.
Qed.

(** X15: the median thermal velocity of the record of a flight with
    thermals lies between the vertical velocities of two of them. *)
Theorem median_velocity_between env igc_path flight t r :
  create_from_file env igc_path = Ok flight →
  parse_flight_details env igc_path = (t, Ok (Some r)) →
  thermals flight ≠ [] →
  ∃ slow fast,
    In slow (thermals flight) ∧ In fast (thermals flight) ∧
    (vertical_velocity slow <= Median_thermal_velocity_m_s r
     <= vertical_velocity fast)%Q.
Proof.
  intros Hf H Hne. pose proof (is_some_record _ _ _ _ H flight Hf) as Hs.
  pose proof (flight_stats_thermals _ _ _ _ Hs) as [_ ->].
  destruct (median_between (map vertical_velocity (thermals flight)))
    as (a & b & Ha & Hb & Hab).
  { by destruct (thermals flight). }
  apply in_map_iff in Ha as (slow & <- & Hslow).
  apply in_map_iff in Hb as (fast & <- & Hfast).
  exists slow, fast. split; [done|]. split; [done|].
  by destruct (map vertical_velocity (thermals flight)) eqn:Hm;
    [destruct (thermals flight)|].
Qed.

Lemma median_velocity_between_witness :
  ∃ r, record_of Sample.env Sample.a_igc = Some r ∧
  ∃ slow fast,
    In slow (thermals Sample.flight_june) ∧ In fast (thermals Sample.flight_june) ∧
    (vertical_velocity slow <= Median_thermal_velocity_m_s r
     <= vertical_velocity fast)%Q.
Proof.
  eexists. split; [vm_compute; reflexivity|].
  apply (median_velocity_between Sample.env Sample.a_igc Sample.flight_june
           [] _ eq_refl eq_refl).
  discriminate.
Defined.

(** * What a run prints *)

Lemma printed_app t1 t2 : printed (t1 ++ t2) = printed t1 ++ printed t2.
Proof. unfold printed. apply omap_app. Qed.

(** The extraction of a file prints nothing, or the diagnostic of an
    invalid flight. *)
Lemma extraction_trace env igc_path :
  fst (parse_flight_details env igc_path) = [] ∨
  ∃ flight,
    create_from_file env igc_path = Ok flight ∧ valid flight = false ∧
    fst (parse_flight_details env igc_path)
    = [Stdout ("Flight " +:+ name igc_path +:+ " is invalid: "
               +:+ str_notes env (notes flight))].
Proof.
  unfold parse_flight_details, lift, bind, print, ret.
  destruct (create_from_file env igc_path) as [flight|e]; [|by left].
  destruct (valid flight) eqn:Hv.
  - left. by destruct (flight_stats env igc_path flight).
  - right. by exists flight.
Qed.

Lemma loop_never_prints_done env out total files :
  ∀ i ds, ¬ In (Stdout "Done.") (fst (process_files env out total i files ds)).
Proof.
  induction files as [|p rest IH]; intros i ds Hin; [done|].
  assert (Hno : ¬ In (Stdout "Done.") (fst (parse_flight_details env p))).
  { destruct (extraction_trace env p) as [->|(flight & _ & _ & ->)];
      [simpl; tauto|].
    simpl. intros [H|[]]. discriminate H. }
  destruct (parse_flight_details env p) as [t [o|e]] eqn:Hp; simpl in Hno.
  - pose proof (process_files_step env out total i p rest ds t o Hp) as Hstep.
    cbv zeta in Hstep.
    destruct (match o with Some d => ds ++ [d] | None => ds end) as [|d l].
    + rewrite Hstep in Hin. simpl in Hin. destruct Hin as [H|H]; [discriminate H | by apply Hno].
    + destruct (csv_write env out _) as [[]|ew] in Hstep; cycle 1.
      { rewrite Hstep in Hin. simpl in Hin.
        destruct Hin as [H|H]; [discriminate H | by apply Hno]. }
      specialize (IH (S i) (d :: l)).
      destruct (process_files env out total (S i) rest (d :: l)) as [t' r].
      rewrite Hstep in Hin. simpl in Hin, IH.
      destruct Hin as [H|H]; [discriminate H|].
      apply in_app_or in H as [H|[H|H]]; [by apply Hno | discriminate H | by apply IH].
  - rewrite (process_files_raise env out total i p rest ds t e Hp) in Hin.
    simpl in Hin. destruct Hin as [H|H]; [discriminate H | by apply Hno].
Qed.

(** X16: a run prints ["Done."] exactly when both folders were given, at
    least one file was found and the run returned without an
    exception. *)
Theorem done_iff_completed env igc_folder output_folder output_filename :
  let run := parse_flights env igc_folder output_folder output_filename in
  In "Done." (printed (fst run)) ↔
  igc_folder ≠ "" ∧ output_folder ≠ "" ∧
  rglob env igc_folder igc_pattern ≠ [] ∧ snd run = Ok tt.
Proof.
  cbv zeta.
  destruct (decide (igc_folder = "")) as [Hin|Hin];
    [|destruct (decide (output_folder = "")) as [Hout|Hout]];
    [| |destruct (rglob env igc_folder igc_pattern) as [|p files] eqn:Hfiles].
  1-3: unfold parse_flights; fold igc_pattern;
    try (apply String.eqb_neq in Hin as Hin'; rewrite Hin');
    try (apply String.eqb_neq in Hout as Hout'; rewrite Hout');
    try rewrite Hfiles; subst; simpl; split; [|tauto];
    intros H; repeat destruct H as [H|H]; try discriminate H; done.
  rewrite (parse_flights_run _ _ _ _ p files Hin Hout Hfiles).
  pose proof (loop_never_prints_done env [output_folder; output_filename]
                (length (p :: files)) (p :: files) 0%nat []) as Hno.
  destruct (process_files _ _ _ _ _ _) as [t [ds|e]]; cbn [fst snd] in *.
  - split; [done|]. intros _.
    change (Stdout "Starting." :: t ++ [Stdout "Done."])
      with ([Stdout "Starting."] ++ t ++ [Stdout "Done."]).
    rewrite !printed_app. apply in_or_app. right. apply in_or_app. right.
    by left.
  - split; [|by intros (_ & _ & _ & ?)]. intros H. exfalso. apply Hno.
    change (printed (Stdout "Starting." :: t)) with ("Starting." :: printed t) in H.
    destruct H as [H|H]; [discriminate H|].
    apply list_elem_of_In, list_elem_of_omap in H as ([l|] & Hl & Heq);
      [|done]. injection Heq as ->. by apply list_elem_of_In.
Qed.

(** The lines of the loop when it returns: for each file its progress
    line and what its extraction prints. *)
Lemma process_files_printed env out total files :
  ∀ i ds ds',
    snd (process_files env out total i files ds) = Ok ds' →
    printed (fst (process_files env out total i files ds))
    = concat (imap (λ k p, progress_line total (i + k) p
                           :: printed (fst (parse_flight_details env p))) files).
Proof.
  induction files as [|p rest IH]; intros i ds ds' Hok; [done|].
  destruct (parse_flight_details env p) as [t [o|e]] eqn:Hp.
  - pose proof (process_files_step env out total i p rest ds t o Hp) as Hstep.
    cbv zeta in Hstep.
    destruct (match o with Some d => ds ++ [d] | None => ds end) as [|d l].
    + rewrite Hstep in Hok. done.
    + destruct (csv_write env out _) as [[]|ew] in Hstep;
        [|by rewrite Hstep in Hok].
      specialize (IH (S i) (d :: l)).
      destruct (process_files env out total (S i) rest (d :: l)) as [t' r].
      rewrite Hstep in Hok |- *. cbn [fst snd] in *.
      specialize (IH ds' Hok).
      change (Stdout (progress_line total i p) :: t ++ ToCsv out
                {| columns := record_keys; rows := stable_sort date_leb (d :: l) |} :: t')
        with ([Stdout (progress_line total i p)] ++ t
              ++ [ToCsv out {| columns := record_keys;
                               rows := stable_sort date_leb (d :: l) |}] ++ t').
      rewrite !printed_app, IH. cbn [imap concat]. rewrite Nat.add_0_r, Hp.
      cbn [fst]. change (printed [Stdout (progress_line total i p)])
        with [progress_line total i p].
      change (printed [ToCsv out {| columns := record_keys;
                                    rows := stable_sort date_leb (d :: l) |}])
        with (@nil string).
      cbn [app]. do 3 f_equal. apply imap_ext. intros k q _. simpl.
      by rewrite Nat.add_succ_r.
  - rewrite (process_files_raise env out total i p rest ds t e Hp) in Hok. done.
Qed.

(** X17: a run that returns after reading files has printed
    ["Starting."], then for each file, in the order of the enumeration,
    its progress line with its rank counted from one and the number of
    files, followed by what its extraction printed, and at last
    ["Done."]. *)
Theorem printed_lines_of_completed_run env igc_folder output_folder
    output_filename :
  igc_folder ≠ "" →
  output_folder ≠ "" →
  let files := rglob env igc_folder igc_pattern in
  let run := parse_flights env igc_folder output_folder output_filename in
  files ≠ [] →
  snd run = Ok tt →
  printed (fst run)
  = "Starting."
    :: concat (imap (λ k p, progress_line (length files) k p
                            :: printed (fst (parse_flight_details env p))) files)
    ++ ["Done."].
Proof.
  intros Hin Hout. cbv zeta. intros Hne Hok.
  destruct (rglob env igc_folder igc_pattern) as [|p files] eqn:Hfiles; [done|].
  rewrite (parse_flights_run _ _ _ _ p files Hin Hout Hfiles) in Hok |- *.
  pose proof (process_files_printed env [output_folder; output_filename]
                (length (p :: files)) (p :: files) 0%nat []) as Hpr.
  destruct (process_files _ _ _ _ _ _) as [t [ds|e]]; cbn [fst snd] in *; [|done].
  change (Stdout "Starting." :: t ++ [Stdout "Done."])
    with ([Stdout "Starting."] ++ t ++ [Stdout "Done."]).
  rewrite !printed_app, (Hpr ds eq_refl). done.
Qed.

Lemma printed_lines_of_completed_run_witness :
  printed (fst (parse_flights Sample.env "flights" "out" "flightbook.csv"))
  = "Starting."
    :: concat (imap (λ k p, progress_line
                              (length (rglob Sample.env "flights" igc_pattern)) k p
                            :: printed (fst (parse_flight_details Sample.env p)))
                 (rglob Sample.env "flights" igc_pattern))
    ++ ["Done."].
Proof.
  apply (printed_lines_of_completed_run Sample.env "flights" "out" "flightbook.csv");
    [discriminate | discriminate | discriminate | reflexivity].
Defined.

(** The lines of the sample run. *)
Example sample_lines :
  printed (fst (parse_flights Sample.env "flights" "out" "flightbook.csv"))
  = ["Starting.";
     "Processing flight 1/3 a.igc";
     "Processing flight 2/3 b.igc";
     "Flight b.igc is invalid: ['Error: too few fixes']";
     "Processing flight 3/3 c.IGC";
     "Done."].
Proof. reflexivity. Qed.

(** * The window *)

Lemma append_assoc (a b c : string) : (a +:+ b) +:+ c = a +:+ b +:+ c.
Proof.
  induction a as [|x a IH]; [done|].
  change (String x ((a +:+ b) +:+ c) = String x (a +:+ b +:+ c)).
  by rewrite IH.
Qed.

Lemma append_nil_r (a : string) : a +:+ "" = a.
Proof.
  induction a as [|x a IH]; [done|].
  change (String x (a +:+ "") = String x a). by rewrite IH.
Qed.

(** [write] adds its text to the panel in whatever state the panel is,
    and leaves it disabled. *)
Lemma write_spec textbox s :
  write textbox s = {| box_text := box_text textbox +:+ s; box_state := Disabled |}.
Proof. reflexivity. Qed.

Lemma replay_spec t :
  ∀ textbox,
    box_text (replay t textbox)
    = box_text textbox
      +:+ String.concat "" (map (λ line, line +:+ newline) (printed t)) ∧
    box_state (replay t textbox)
    = match printed t with [] => box_state textbox | _ :: _ => Disabled end.
Proof.
  induction t as [|e t IH]; intros textbox.
  { simpl. by rewrite append_nil_r. }
  destruct e as [line|path df]; [|apply IH].
  change (replay (Stdout line :: t) textbox) with (replay t (print_to textbox line)).
  destruct (IH (print_to textbox line)) as [-> ->].
  change (printed (Stdout line :: t)) with (line :: printed t).
  split.
  - unfold print_to. rewrite !write_spec. cbn [box_text map].
    rewrite !append_assoc. f_equal.
    destruct (printed t) as [|l ls] eqn:Hp.
    + simpl. by rewrite append_nil_r.
    + change (String.concat "" ((line +:+ newline) :: map (λ line0, line0 +:+ newline) (l :: ls)))
        with ((line +:+ newline) +:+ ""
              +:+ String.concat "" (map (λ line0, line0 +:+ newline) (l :: ls))).
      by rewrite append_assoc.
  - by destruct (printed t).
Qed.

Lemma run_prints env igc_folder output_folder output_filename :
  printed (fst (parse_flights env igc_folder output_folder output_filename)) ≠ [].
Proof.
  destruct (decide (igc_folder = "")) as [Hin|Hin];
    [|destruct (decide (output_folder = "")) as [Hout|Hout]];
    [| |destruct (rglob env igc_folder igc_pattern) as [|p files] eqn:Hfiles].
  1-3: destruct (parse_flights_halts env igc_folder output_folder output_filename)
      as [line [Hr | Hr]]; [tauto| |]; by rewrite Hr.
  rewrite (parse_flights_run _ _ _ _ p files Hin Hout Hfiles).
  by destruct (process_files _ _ _ _ _ _) as [t [ds|e]].
Qed.

(** X18: pressing the start button runs [parse_flights] on the two
    folder variables and the entry: the log panel gains, after what it
    held, every line the run printed, each followed by a line end, and is
    left disabled; the window is otherwise unchanged, and the tables
    written are those of the run. *)
Theorem start_logs_the_run env g :
  let run := parse_flights env (igc_folder_var g) (csv_folder_var g)
               (csv_filename_entry g) in
  let g' := fst (click env g Start) in
  box_text (text_box g')
  = box_text (text_box g)
    +:+ String.concat "" (map (λ line, line +:+ newline) (printed (fst run))) ∧
  box_state (text_box g') = Disabled ∧
  (igc_folder_var g', select_igc_folder_label g', csv_folder_var g',
   select_csv_folder_label g', csv_filename_entry g')
  = (igc_folder_var g, select_igc_folder_label g, csv_folder_var g,
     select_csv_folder_label g, csv_filename_entry g) ∧
  snd (click env g Start) = writes (fst run).
Proof.
  cbv zeta. cbn [click fst snd text_box].
  destruct (replay_spec
              (fst (parse_flights env (igc_folder_var g) (csv_folder_var g)
                      (csv_filename_entry g))) (text_box g)) as [-> ->].
  pose proof (run_prints env (igc_folder_var g) (csv_folder_var g)
                (csv_filename_entry g)) as Hne.
  by destruct (printed _).
Qed.

Lemma last_choice_snoc answers d :
  last_choice (answers ++ [d])
  = if truthy d then d else last_choice answers.
Proof.
  unfold last_choice. rewrite List.filter_app. simpl.
  destruct (truthy d); [|by rewrite app_nil_r].
  by rewrite last_last.
Qed.

Lemma session_snoc env actions a :
  session env (actions ++ [a]) = fst (click env (session env actions) a).
Proof. unfold session. by rewrite fold_left_app. Qed.

Lemma label_for_set_folder d folder label :
  label = label_for folder →
  snd (set_folder d folder label) = label_for (fst (set_folder d folder label)).
Proof.
  intros ->. unfold set_folder, label_for. simpl.
  destruct (truthy d) eqn:Hd; [by rewrite Hd|]. by destruct (truthy folder).
Qed.

Ltac window_fields :=
  unfold click; cbv zeta;
  cbn [fst snd igc_folder_var csv_folder_var select_igc_folder_label
       select_csv_folder_label csv_filename_entry text_box omap list_omap app].

(** The variables of the two folders, by the answers of their
    dialogs. *)
Lemma window_shows_selection_igc env actions :
  igc_folder_var (session env actions) = last_choice (igc_answers actions) ∧
  csv_folder_var (session env actions) = last_choice (csv_answers actions).
Proof.
  induction actions as [|a actions IH] using rev_ind; [done|].
  rewrite session_snoc. unfold igc_answers, csv_answers in *.
  rewrite !omap_app. destruct IH as [Hi Hc].
  destruct a as [d|d|s|]; window_fields; rewrite ?app_nil_r; try done.
  - destruct (set_folder d _ _) as [v l] eqn:Hset. window_fields.
    split; [|done]. rewrite last_choice_snoc, <- Hi.
    unfold set_folder in Hset. by injection Hset as <- _.
  - destruct (set_folder d _ _) as [v l] eqn:Hset. window_fields.
    split; [done|]. rewrite last_choice_snoc, <- Hc.
    unfold set_folder in Hset. by injection Hset as <- _.
Qed.

(** X19: after any list of actions, each folder variable holds the last
    answer of its dialog that was not a cancellation (the empty text if
    there was none), each label shows its variable (the initial text if
    the variable is empty), the entry holds what was typed last (the
    default name if nothing was typed), and the log panel is disabled. *)
Theorem window_shows_selection env actions :
  let g := session env actions in
  igc_folder_var g = last_choice (igc_answers actions) ∧
  select_igc_folder_label g = label_for (igc_folder_var g) ∧
  csv_folder_var g = last_choice (csv_answers actions) ∧
  select_csv_folder_label g = label_for (csv_folder_var g) ∧
  csv_filename_entry g
  = List.last (omap (λ a, match a with Edit_filename s => Some s | _ => None end)
                 actions) "flightbook.csv" ∧
  box_state (text_box g) = Disabled.
Proof.
  cbv zeta.
  destruct (window_shows_selection_igc env actions) as [Hi Hc].
  split; [done|]. split; [|split; [done|split; [|split]]]; clear Hi Hc;
    (induction actions as [|a actions IH] using rev_ind; [done|]);
    rewrite session_snoc, ?omap_app;
    destruct a as [d|d|s|]; window_fields; rewrite ?app_nil_r;
    try done;
    try (by rewrite last_last);
    try (pose proof (label_for_set_folder d _ _ IH) as H;
         by destruct (set_folder d _ _) as [v l]);
    try (by destruct (set_folder d _ _) as [v l]).
  destruct (replay_spec
              (fst (parse_flights env (igc_folder_var (session env actions))
                      (csv_folder_var (session env actions))
                      (csv_filename_entry (session env actions))))
              (text_box (session env actions))) as [_ ->].
  by destruct (printed _).
Qed.

Lemma last_choice_cancelled answers :
  Forall (λ d, d = "") answers → last_choice answers = "".
Proof.
  unfold last_choice. induction 1 as [|d ds -> _ IH]; [done|]. exact IH.
Qed.

(** X20: as long as every dialog for the folder of the track files was
    cancelled, the start button only adds the request to select that
    folder to the log panel, and writes nothing. *)
Theorem start_without_igc_folder env actions :
  Forall (λ d, d = "") (igc_answers actions) →
  let g := session env actions in
  box_text (text_box (fst (click env g Start)))
  = box_text (text_box g) +:+ "Please select IGC file location." +:+ newline ∧
  snd (click env g Start) = [].
Proof.
  intros Hall. cbv zeta.
  destruct (window_shows_selection_igc env actions) as [Hi _].
  assert (Hnone : igc_folder_var (session env actions) = "").
  { rewrite Hi. by apply last_choice_cancelled. }
  cbn [click fst snd text_box]. unfold parse_flights. rewrite Hnone. simpl.
  by rewrite append_assoc.
Qed.

Lemma start_without_igc_folder_witness :
  let g := session Sample.env [Select_csv_folder "out"; Select_igc_folder ""] in
  box_text (text_box (fst (click Sample.env g Start)))
  = box_text (text_box g) +:+ "Please select IGC file location." +:+ newline ∧
  snd (click Sample.env g Start) = [].
Proof.
  apply (start_without_igc_folder Sample.env
           [Select_csv_folder "out"; Select_igc_folder ""]).
  repeat constructor.
Defined.

(** * The order of the enumeration *)

Lemma date_leb_both a b :
  date_leb a b = true → date_leb b a = true → date_key a = date_key b.
Proof.
  unfold date_leb.
  destruct (date_key a) as [[y1 m1] d1], (date_key b) as [[y2 m2] d2].
  rewrite !key_leb_spec. intros H1 H2.
  assert (y1 = y2 ∧ m1 = m2 ∧ d1 = d2) as (-> & -> & ->) by lia. done.
Qed.

Lemma NoDup_keys_inj (l : list FlightRecord) a b :
  NoDup (map date_key l) → a ∈ l → b ∈ l → date_key a = date_key b → a = b.
Proof.
  induction l as [|x l IH]; intros Hnd Ha Hb Hk.
  { by apply elem_of_nil in Ha. }
  apply NoDup_cons in Hnd as [Hx Hnd].
  apply elem_of_cons in Ha as [->|Ha]; apply elem_of_cons in Hb as [->|Hb];
    [done | | |by apply IH].
  - exfalso. apply Hx. rewrite Hk. by apply (list_elem_of_fmap_2 date_key).
  - exfalso. apply Hx. rewrite <- Hk. by apply (list_elem_of_fmap_2 date_key).
Qed.

(** Lists of records of pairwise different dates that hold the same
    records give the same table. *)
Lemma table_of_permutation l l' :
  l ≡ₚ l' → NoDup (map date_key l) → table l = table l'.
Proof.
  intros Hperm Hnd. unfold table. f_equal.
  apply (StronglySorted_unique_strong date_le).
  - intros a b Ha Hb Hab Hba.
    rewrite stable_sort_perm in Ha. rewrite stable_sort_perm, <- Hperm in Hb.
    apply (NoDup_keys_inj l); [done..|]. by apply date_leb_both.
  - apply stable_sort_strongly; [apply date_leb_total | apply date_leb_trans].
  - apply stable_sort_strongly; [apply date_leb_total | apply date_leb_trans].
  - by rewrite !stable_sort_perm.
Qed.

Lemma last_write_of_loop env out total files i ds ds' :
  files ≠ [] →
  snd (process_files env out total i files ds) = Ok ds' →
  last (writes (fst (process_files env out total i files ds)))
  = Some (out, table ds') ∧ ds' = ds ++ extracted env files.
Proof.
  intros Hne Hok.
  destruct (process_files_writes_list env out total files i ds)
    as (m & _ & -> & Hres).
  rewrite Hok in Hres. destruct Hres as [-> ->]. split; [|done].
  destruct files as [|p files]; [done|].
  change (length (p :: files)) with (S (length files)).
  rewrite seq_S, map_app. cbn [map]. rewrite last_snoc.
  do 5 f_equal. apply take_ge. simpl. lia.
Qed.

(** X21: let the loop return on a list of files and on the same files in
    another order.  If no two of the flights have the same date, the
    table written last is the same for both orders. *)
Theorem last_table_independent_of_order env out total total' files files' ds ds' :
  files ≡ₚ files' →
  files ≠ [] →
  snd (process_files env out total 0 files []) = Ok ds →
  snd (process_files env out total' 0 files' []) = Ok ds' →
  NoDup (map date_key ds) →
  last (writes (fst (process_files env out total 0 files [])))
  = last (writes (fst (process_files env out total' 0 files' []))) ∧
  last (writes (fst (process_files env out total 0 files [])))
  = Some (out, table ds).
Proof.
  intros Hperm Hne Hok Hok' Hnd.
  assert (Hne' : files' ≠ []).
  { intros ->. by apply Permutation_nil_r in Hperm. }
  destruct (last_write_of_loop env out total files 0 [] ds Hne Hok) as [-> Hds].
  destruct (last_write_of_loop env out total' files' 0 [] ds' Hne' Hok')
    as [-> Hds'].
  split; [|done]. do 2 f_equal. apply table_of_permutation; [|done].
  subst ds ds'. simpl. unfold extracted. by rewrite Hperm.
Qed.

Lemma last_table_independent_of_order_witness :
  last (writes (fst (process_files Sample.env ["out"; "flightbook.csv"] 3 0
                       [Sample.a_igc; Sample.b_igc; Sample.c_igc] [])))
  = last (writes (fst (process_files Sample.env ["out"; "flightbook.csv"] 3 0
                         [Sample.c_igc; Sample.a_igc; Sample.b_igc] []))) ∧
  last (writes (fst (process_files Sample.env ["out"; "flightbook.csv"] 3 0
                       [Sample.a_igc; Sample.b_igc; Sample.c_igc] [])))
  = Some (["out"; "flightbook.csv"],
          table (extracted Sample.env [Sample.a_igc; Sample.b_igc; Sample.c_igc])).
Proof.
  apply (last_table_independent_of_order Sample.env ["out"; "flightbook.csv"] 3 3
           [Sample.a_igc; Sample.b_igc; Sample.c_igc]
           [Sample.c_igc; Sample.a_igc; Sample.b_igc]
           (extracted Sample.env [Sample.a_igc; Sample.b_igc; Sample.c_igc])
           (extracted Sample.env [Sample.c_igc; Sample.a_igc; Sample.b_igc])).
  - change [Sample.c_igc; Sample.a_igc; Sample.b_igc]
      with ([Sample.c_igc] ++ [Sample.a_igc; Sample.b_igc]).
    change [Sample.a_igc; Sample.b_igc; Sample.c_igc]
      with ([Sample.a_igc; Sample.b_igc] ++ [Sample.c_igc]).
    apply Permutation_app_comm.
  - discriminate.
  - vm_compute. reflexivity.
  - vm_compute. reflexivity.
  - vm_compute. apply NoDup_cons. split; [|apply NoDup_singleton].
    intros H. apply list_elem_of_singleton in H. discriminate H.
Defined.

(** * Elevations with a unit *)

Lemma digit_facts c :
  is_digit c = true →
  is_space c = false ∧ tr c = None ∧
  Ascii.eqb c "-" = false ∧ Ascii.eqb c "+" = false ∧
  Ascii.eqb (lower c) "i" = false ∧ Ascii.eqb (lower c) "n" = false ∧
  c ≠ " "%char ∧ (nat_of_ascii c <? 128)%nat = true ∧ 0 <= digit_value c.
Proof.
  destruct c as [[] [] [] [] [] [] [] []]; intros H; try discriminate H;
    repeat split; try reflexivity; discriminate.
Qed.

Lemma list_ascii_of_append (a b : string) :
  list_ascii_of_string (a +:+ b)
  = list_ascii_of_string a ++ list_ascii_of_string b.
Proof.
  induction a as [|x a IH]; [done|].
  change (x :: list_ascii_of_string (a +:+ b)
          = x :: (list_ascii_of_string a ++ list_ascii_of_string b)).
  by rewrite IH.
Qed.

Lemma translate_digits s x :
  Forall (λ c, is_digit c = true) (list_ascii_of_string s) →
  translate tr (s +:+ x) = s +:+ translate tr x.
Proof.
  induction s as [|c s IH]; intros H; [done|].
  simpl in H. apply Forall_cons in H as [Hc H].
  change (translate tr (String c (s +:+ x)) = String c (s +:+ translate tr x)).
  simpl translate. destruct (digit_facts c Hc) as (_ & -> & _).
  by rewrite IH.
Qed.

Lemma prefix_meter c s :
  c ≠ " "%char → String.prefix " Meter" (String c s) = false.
Proof.
  intros Hc.
  change (String.prefix " Meter" (String c s))
    with (if ascii_dec " " c then String.prefix "Meter" s else false).
  destruct (ascii_dec " " c); [congruence | done].
Qed.

Lemma replace_digits s x :
  Forall (λ c, is_digit c = true) (list_ascii_of_string s) →
  replace " Meter" "" (s +:+ x) = s +:+ replace " Meter" "" x.
Proof.
  unfold replace. induction s as [|c s IH]; intros H; [done|].
  simpl in H. apply Forall_cons in H as [Hc H].
  destruct (digit_facts c Hc) as (_ & _ & _ & _ & _ & _ & Hsp & _).
  change (replace_from " Meter" "" 0 (String c s +:+ x))
    with (if String.prefix " Meter" (String c (s +:+ x))
          then "" +:+ replace_from " Meter" "" (String.length " Meter" - 1) (s +:+ x)
          else String c (replace_from " Meter" "" 0 (s +:+ x))).
  rewrite (prefix_meter c _ Hsp), IH by done. done.
Qed.

Lemma drop_spaces_digit c l :
  is_digit c = true → drop_spaces (c :: l) = c :: l.
Proof. intros Hc. simpl. by destruct (digit_facts c Hc) as (-> & _). Qed.

Lemma strip_digits l ys :
  l ≠ [] → Forall (λ c, is_digit c = true) l →
  ys = [] ∨ ys = [" "%char] →
  strip (l ++ ys) = l.
Proof.
  intros Hne Hall Hys. unfold strip.
  assert (Hfront : drop_spaces (l ++ ys) = l ++ ys).
  { destruct l as [|c l]; [done|]. apply Forall_cons in Hall as [Hc _].
    by apply drop_spaces_digit. }
  rewrite Hfront, rev_app_distr.
  assert (Hback : drop_spaces (rev l) = rev l).
  { destruct (rev l) as [|c r] eqn:Hr.
    - done.
    - apply drop_spaces_digit.
      assert (Hin : In c l) by (apply in_rev; rewrite Hr; by left).
      rewrite Forall_forall in Hall. by apply Hall, list_elem_of_In. }
  destruct Hys as [->| ->]; simpl; rewrite ?Hback; by rewrite rev_involutive.
Qed.

Lemma digits_go_all l :
  Forall (λ c, is_digit c = true) l →
  ∀ acc cnt,
    digits_go acc cnt l
    = (fold_left (λ a c, a * 10 + digit_value c) l acc, (cnt + length l)%nat, []).
Proof.
  induction 1 as [|c l Hc _ IH]; intros acc cnt.
  - simpl. by rewrite Nat.add_0_r.
  - simpl. rewrite Hc, IH. do 2 f_equal. lia.
Qed.

Lemma float_ascii_digits s y :
  all_digits s → y = "" ∨ y = " " →
  float_ascii (s +:+ y) = Ok (binary64 (inject_Z (number_of s))).
Proof.
  intros [Hne Hall] Hy. unfold float_ascii, number_of.
  rewrite list_ascii_of_append.
  rewrite (strip_digits (list_ascii_of_string s) (list_ascii_of_string y));
    [|by destruct s|done|by destruct Hy as [->| ->]; [left|right]].
  destruct (list_ascii_of_string s) as [|c l] eqn:Hl; [by destruct s|].
  apply Forall_cons in Hall as [Hc Hall].
  destruct (digit_facts c Hc) as (_ & _ & Hminus & Hplus & Hi & Hn & _).
  unfold sign_of. rewrite Hminus, Hplus.
  cbn [map string_of_list_ascii String.eqb]. rewrite Hi, Hn. cbn [andb orb].
  unfold numeral, digitpart. rewrite Hc, (digits_go_all l Hall).
  reflexivity.
Qed.

Lemma ascii_text_digits s y :
  all_digits s → y = "" ∨ y = " " → ascii_text (s +:+ y) = true.
Proof.
  intros [_ Hall] Hy. unfold ascii_text.
  rewrite list_ascii_of_append, forallb_app. apply andb_true_iff. split.
  - apply forallb_forall. intros c Hc. rewrite Forall_forall in Hall.
    apply list_elem_of_In, Hall in Hc.
    by destruct (digit_facts c Hc) as (_ & _ & _ & _ & _ & _ & _ & ? & _).
  - by destruct Hy as [->| ->].
Qed.

Lemma float_digits env s y :
  all_digits s → y = "" ∨ y = " " →
  float env (s +:+ y) = Ok (binary64 (inject_Z (number_of s))).
Proof.
  intros Hs Hy. unfold float.
  by rewrite (ascii_text_digits s y Hs Hy), (float_ascii_digits s y Hs Hy).
Qed.

Lemma number_of_nonneg s :
  Forall (λ c, is_digit c = true) (list_ascii_of_string s) → 0 <= number_of s.
Proof.
  unfold number_of. intros Hall.
  assert (Hacc : ∀ acc, 0 <= acc →
            0 <= fold_left (λ a c, a * 10 + digit_value c)
                   (list_ascii_of_string s) acc); [|by apply Hacc].
  induction Hall as [|c l Hc _ IH]; intros acc Hacc; [done|].
  simpl. apply IH.
  destruct (digit_facts c Hc) as (_ & _ & _ & _ & _ & _ & _ & _ & ?). lia.
Qed.

(** Whole numbers up to [2 ^ 53] are doubles. *)
Lemma Qred_whole n : Qred (inject_Z n) = inject_Z n.
Proof.
  unfold Qred, inject_Z.
  generalize (Z.ggcd_gcd n 1) (Z.ggcd_correct_divisors n 1).
  destruct (Z.ggcd n 1) as [g [a b]]. simpl. intros Hg [Ha Hb].
  rewrite Z.gcd_1_r in Hg. subst g.
  assert (a = n) as -> by lia. assert (b = 1) as -> by lia. reflexivity.
Qed.

Lemma round_half_even_whole a : round_half_even a 1 = a.
Proof. unfold round_half_even. by rewrite Z.div_1_r, Z.mod_1_r. Qed.

Lemma nearest_double_whole n :
  0 < n <= 2 ^ 53 → nearest_double n 1 = Some (inject_Z n).
Proof.
  intros Hn. unfold nearest_double.
  change (Z.log2 1) with 0. rewrite Z.sub_0_r.
  pose proof (Z.log2_nonneg n) as H0.
  pose proof (Z.log2_spec n (proj1 Hn)) as [Hlow _].
  assert (Hup : Z.log2 n <= 53).
  { rewrite <- (Z.log2_pow2 53) by lia. apply Z.log2_le_mono. lia. }
  replace (0 <=? Z.log2 n) with true by (symmetry; apply Z.leb_le; lia).
  replace (1 * 2 ^ Z.log2 n <=? n) with true by (symmetry; apply Z.leb_le; lia).
  rewrite Z.max_l by lia.
  destruct (0 <=? Z.log2 n - 52) eqn:Hk.
  - apply Z.leb_le in Hk.
    destruct (decide (Z.log2 n = 52)) as [H52|H52].
    + rewrite H52. change (1 * 2 ^ (52 - 52)) with 1.
      rewrite round_half_even_whole. change (2 ^ (52 - 52)) with 1.
      rewrite Z.mul_1_r.
      replace (2 ^ 1024 <=? n) with false; [done|].
      symmetry. apply Z.leb_gt.
      apply Z.le_lt_trans with (2 ^ 53); [lia | reflexivity].
    + assert (H53 : Z.log2 n = 53) by lia. rewrite H53 in Hlow.
      assert (n = 2 ^ 53) as -> by lia. reflexivity.
  - apply Z.leb_gt in Hk. rewrite round_half_even_whole.
    f_equal. rewrite <- Qred_whole. apply Qred_complete.
    unfold Qeq, inject_Z. simpl.
    rewrite Z2Pos.id by (apply Z.pow_pos_nonneg; lia). lia.
Qed.

Lemma binary64_whole n :
  0 <= n <= 2 ^ 53 → binary64 (inject_Z n) = FNum (inject_Z n).
Proof.
  intros Hn. unfold binary64. simpl Qnum. simpl Qden.
  destruct n as [|p|p]; [done| |lia].
  by rewrite nearest_double_whole by lia.
Qed.

(** Beyond [2 ^ 53] a whole number may lie between two doubles, and a
    numeral of 401 digits is beyond the largest one. *)
Example binary64_rounds :
  binary64 (inject_Z (2 ^ 53 + 1)) = FNum (inject_Z (2 ^ 53)) ∧
  binary64 (inject_Z (2 ^ 53 + 3)) = FNum (inject_Z (2 ^ 53 + 4)) ∧
  binary64 (inject_Z (10 ^ 400)) = FInf false.
Proof. repeat split; reflexivity. Qed.

(** X22: an elevation written as a whole number of metres, bare or
    followed by [m], by a space and [m], or by a space and [Meter], is
    accepted after the normalisation, however many digits it has; it is
    read as the double nearest to that number, which up to [2 ^ 53] is
    the number itself. *)
Theorem elevation_with_unit_accepted env s suffix :
  all_digits s →
  In suffix [""; "m"; " m"; " Meter"] →
  float env (normalise_elevation (s +:+ suffix))
  = Ok (binary64 (inject_Z (number_of s)))
  ∧ (number_of s <= 2 ^ 53 →
     float env (normalise_elevation (s +:+ suffix))
     = Ok (FNum (inject_Z (number_of s)))).
Proof.
  intros Hs Hin.
  assert (Hread : float env (normalise_elevation (s +:+ suffix))
                  = Ok (binary64 (inject_Z (number_of s)))).
  { unfold normalise_elevation. pose proof Hs as [Hne Hall].
    rewrite (translate_digits s suffix Hall).
    destruct Hin as [<-|[<-|[<-|[<-|[]]]]];
      rewrite (replace_digits _ _ Hall);
      (apply float_digits; [done|]);
      first [left; reflexivity | right; reflexivity]. }
  split; [exact Hread|]. intros Hle. rewrite Hread.
  rewrite binary64_whole; [done|].
  split; [|done]. apply number_of_nonneg. by destruct Hs.
Qed.

Lemma elevation_with_unit_accepted_witness :
  float Sample.env (normalise_elevation ("2717" +:+ " Meter"))
  = Ok (FNum (inject_Z 2717)).
Proof.
  assert (Hs : all_digits "2717").
  { split; [discriminate | repeat constructor]. }
  assert (Hin : In " Meter" [""; "m"; " m"; " Meter"]).
  { simpl. tauto. }
  apply (proj2 (elevation_with_unit_accepted Sample.env "2717" " Meter" Hs Hin)).
  vm_compute. discriminate.
Defined.
